(** * Command dispatch and reconciliation engine of the MQTT services

    A shallow embedding of [mqtt-bridge/index.js] (HTTP trigger, publish
    helper, dedup map, polling loop) and of [mqtt-subscriber/index.js]
    (status consumer), followed by the properties of the dispatch and
    reconciliation engine.

    Asynchronous code is embedded as a transition system: every callback
    the event loop can run (a connection event, a timer, an HTTP request,
    one turn of the polling loop, an inbound MQTT message) is an event, and
    whatever the outside world decides (the broker's acknowledgement, the
    store's answer, the clock) travels with the event. *)

From Stdlib Require Import ZArith String Ascii List Bool Lia.
From stdpp Require Import base option list strings pretty gmap fin_maps sorting.

Set Warnings "-register-all".
Open Scope Z_scope.
Open Scope string_scope.

(** ** JavaScript values and string operations *)

Module Js.

(** A value as [express.json()] or [JSON.parse] can deliver it, plus
    [undefined] for an absent property. An object lists its own properties,
    each key once. Numbers carry integers: the code only tests a number for
    truthiness or prints it. *)
Inductive JsValue : Type :=
| JUndefined
| JNull
| JBool (b : bool)
| JNum (n : Z)
| JStr (s : string)
| JArr (items : list JsValue)
| JObj (fields : list (string * JsValue)).

(** [!!v]: [undefined], [null], [false], [0] and [''] are falsy; every
    object and array, also an empty one, is truthy. *)
Definition truthy (v : JsValue) : bool :=
  match v with
  | JUndefined | JNull => false
  | JBool b => b
  | JNum n => negb (Z.eqb n 0)
  | JStr s => negb (String.eqb s "")
  | JArr _ | JObj _ => true
  end.

(** [a || b] *)
Definition or_else (a b : JsValue) : JsValue := if truthy a then a else b.

(** Own property of a parsed object, [undefined] when it has none. *)
Fixpoint lookupField (k : string) (fields : list (string * JsValue)) : JsValue :=
  match fields with
  | [] => JUndefined
  | (k', v) :: rest => if String.eqb k k' then v else lookupField k rest
  end.

(** [const { k } = v]: reading a property of [null] or [undefined] throws a
    TypeError ([None]); primitives and arrays have none of the properties
    the services read. *)
Definition getProp (k : string) (v : JsValue) : option JsValue :=
  match v with
  | JUndefined | JNull => None
  | JObj fields => Some (lookupField k fields)
  | _ => Some JUndefined
  end.

Fixpoint dropChars (n : nat) (s : string) : string :=
  match n, s with
  | O, _ => s
  | S n', String _ s' => dropChars n' s'
  | S _, EmptyString => EmptyString
  end.

(** [s.includes(pattern)] *)
Fixpoint includes (pattern s : string) : bool :=
  if String.prefix pattern s then true
  else match s with
       | EmptyString => false
       | String _ s' => includes pattern s'
       end.

(** [s.replace(pattern, replacement)] for a string pattern: only the
    leftmost occurrence is replaced. (The replacement strings used by the
    services contain no [$] pattern.) *)
Fixpoint replace (pattern replacement s : string) : string :=
  if String.prefix pattern s
  then replacement ++ dropChars (String.length pattern) s
  else match s with
       | EmptyString => EmptyString
       | String c s' => String c (replace pattern replacement s')
       end.

End Js.
Import Js.

(** [JSON.parse], [JSON.stringify] and the printing of numbers are library
    code: the services are embedded over any implementation. [JSON_parse]
    answers [None] where [JSON.parse] throws a SyntaxError;
    [Number_toString n] is the string JavaScript makes of the number [n]
    (its decimal digits below 10^21, an exponent form from there on). *)
Class Json : Type := {
  JSON_parse : string -> option JsValue;
  JSON_stringify : JsValue -> string;
  Number_toString : Z -> string
}.

(** [`${v}`]: the string a template literal makes of a value, [None] where
    the conversion throws a TypeError. A parsed object has no callable
    property, so one with an own "toString" cannot be converted; any other
    converts to "[object Object]". An array joins its elements, [null] and
    [undefined] as empty strings. *)
Fixpoint toStr `{Json} (v : JsValue) : option string :=
  match v with
  | JUndefined => Some "undefined"
  | JNull => Some "null"
  | JBool b => Some (if b then "true" else "false")
  | JNum n => Some (Number_toString n)
  | JStr s => Some s
  | JArr items =>
      String.concat ","
        <$> mapM (fun x => match x with
                           | JUndefined | JNull => Some ""
                           | _ => toStr x
                           end) items
  | JObj fields =>
      if existsb (fun kv => String.eqb (fst kv) "toString") fields
      then None
      else Some "[object Object]"
  end.

(** ** The external item store (collection [device_commands]) *)

Module Directus.

Record Device : Type := {
  device_key : string;
  device_mac : option string;
  device_name : option string
}.

(** One row of [device_commands], with the device relation resolved the
    way the [fields] parameter of the reconciler's query asks for it.
    Timestamps are clock readings in milliseconds. *)
Record Command : Type := {
  id : string;
  command_type : JsValue;
  fingerprint_id : JsValue;
  member_id : JsValue;
  device_id : option Device;
  date_created : Z;
  status : string;
  result : JsValue;
  error_message : JsValue;
  executed_at : option Z
}.

(** Body of a PATCH request: the fields it names are overwritten, the
    others keep their value. *)
Record PatchBody : Type := {
  patch_status : option string;
  patch_result : option JsValue;
  patch_error_message : option JsValue;
  patch_executed_at : option Z
}.

Definition applyPatch (b : PatchBody) (c : Command) : Command :=
  {| id := id c;
     command_type := command_type c;
     fingerprint_id := fingerprint_id c;
     member_id := member_id c;
     device_id := device_id c;
     date_created := date_created c;
     status := default (status c) (patch_status b);
     result := default (result c) (patch_result b);
     error_message := default (error_message c) (patch_error_message b);
     executed_at :=
       match patch_executed_at b with
       | Some t => Some t
       | None => executed_at c
       end |}.

Definition hasItem (key : string) (rows : list Command) : bool :=
  existsb (fun c => String.eqb (id c) key) rows.

(** [PATCH /items/device_commands/<key>]. The request is rejected ([None])
    when the store does not answer ([reachable = false]: refused
    connection, timeout, server error) or holds no item under [key]. Both
    services write the identifier into the path as it is; [key] is the item
    the store is asked for when the identifier is a key as the store
    issues them (see [plainKey]), which the path carries unchanged. *)
Definition patchItem (reachable : bool) (key : string) (b : PatchBody)
    (rows : list Command) : option (list Command) :=
  if reachable && hasItem key rows
  then Some (map (fun c => if String.eqb (id c) key then applyPatch b c else c) rows)
  else None.

Definition isPending (c : Command) : bool := String.eqb (status c) "pending".

Definition createdBefore (a b : Command) : Prop := date_created a <= date_created b.

#[global] Instance createdBefore_dec a b : Decision (createdBefore a b).
Proof. unfold createdBefore. apply _. Defined.

(** [GET /items/device_commands] with [filter[status][_eq]=pending],
    [sort=date_created], [limit=10]. *)
Definition fetchPending (rows : list Command) : list Command :=
  take 10 (merge_sort createdBefore (List.filter isPending rows)).

End Directus.
Import Directus.

(** ** What the two services do to the outside world *)

Inductive Reply : Type :=
| Published (topic : JsValue) (timestamp : Z)
    (* res.json({ success: true, topic, timestamp }) *)
| Failed (code : Z) (error : string).
    (* res.status(code).json({ error }) *)

(** Requests and answers a callback issues, in order. Console output is
    left out. *)
Inductive Effect : Type :=
| MqttPublish (topic : JsValue) (message : string)
    (* mqttClient.publish(topic, message, { qos: 1 }, cb) *)
| DirectusPatch (key : string) (b : PatchBody)
    (* directusApi.patch(`/items/device_commands/${key}`, b) *)
| HttpReply (r : Reply).

(** How a promise settles: resolved, or rejected with [err.message]. *)
Inductive Settled : Type :=
| Resolved
| Rejected (message : string).

(** ** mqtt-bridge *)

Module Bridge.

Record Config : Type := {
  BRIDGE_SECRET : option string;
  DIRECTUS_TOKEN : option string
}.

(** [directusApi] is [null] unless [DIRECTUS_TOKEN] is a non-empty string. *)
Definition directusApi (cfg : Config) : bool :=
  match DIRECTUS_TOKEN cfg with
  | None | Some "" => false
  | Some _ => true
  end.

Definition PUBLISH_COOLDOWN : Z := 30000.

(** Module-level variables of the bridge, the commands its running
    polling loop has still to visit ([commands], empty when no loop is
    suspended), and the rows of the store ([items]). *)
Record World : Type := {
  mqttConnected : bool;
  isPolling : bool;
  recentlyPublished : gmap string Z;
  commands : list Command;
  items : list Command
}.

Definition set_mqttConnected (b : bool) (w : World) : World :=
  {| mqttConnected := b; isPolling := isPolling w;
     recentlyPublished := recentlyPublished w;
     commands := commands w; items := items w |}.

Definition set_isPolling (b : bool) (w : World) : World :=
  {| mqttConnected := mqttConnected w; isPolling := b;
     recentlyPublished := recentlyPublished w;
     commands := commands w; items := items w |}.

Definition set_recentlyPublished (m : gmap string Z) (w : World) : World :=
  {| mqttConnected := mqttConnected w; isPolling := isPolling w;
     recentlyPublished := m;
     commands := commands w; items := items w |}.

Definition set_commands (l : list Command) (w : World) : World :=
  {| mqttConnected := mqttConnected w; isPolling := isPolling w;
     recentlyPublished := recentlyPublished w;
     commands := l; items := items w |}.

Definition set_items (rows : list Command) (w : World) : World :=
  {| mqttConnected := mqttConnected w; isPolling := isPolling w;
     recentlyPublished := recentlyPublished w;
     commands := commands w; items := rows |}.

Inductive Outcome : Type :=
| Next                                   (* next() *)
| Reject (code : Z) (error : string).    (* res.status(code).json({ error }) *)

(** [authMiddleware]; [authorization] is [req.headers.authorization] and
    [secret] is [process.env.BRIDGE_SECRET], both absent or a string. *)
Definition authMiddleware (secret authorization : option string) : Outcome :=
  let token := (fun h => replace "Bearer " "" h) <$> authorization in
  match secret with
  | None | Some "" => Next
  | Some sec =>
      match token with
      | Some t => if String.eqb t sec then Next else Reject 401 "Unauthorized"
      | None => Reject 401 "Unauthorized"
      end
  end.

Section WithJson.
Context `{Json}.

(** [publishToMqtt], as its promise has settled. [ack] is the error the
    broker client hands to the publish callback, [None] for a clean
    acknowledgement. The promise settles nowhere but in that callback and
    the helper sets no timeout: a publish whose callback the client never
    runs leaves its caller suspended, which is a callback that has not
    resumed, and no event of a run (see [publishRouteBegin] for the trigger
    route up to that point). *)
Definition publishToMqtt (connected : bool) (ack : option string)
    (topic payload : JsValue) : list Effect * Settled :=
  if negb connected then ([], Rejected "MQTT broker not connected")
  else
    let message :=
      match payload with
      | JStr s => s
      | _ => JSON_stringify payload
      end in
    ([MqttPublish topic message],
     match ack with
     | Some err => Rejected err
     | None => Resolved
     end).

(** Handler of [POST /api/mqtt/publish], after the middleware. [body] holds
    the properties of [req.body]; [now] is the clock when it answers. *)
Definition publishHandler (connected : bool) (ack : option string) (now : Z)
    (body : list (string * JsValue)) : list Effect :=
  let topic := lookupField "topic" body in
  let payload := lookupField "payload" body in
  if negb (truthy topic) then [HttpReply (Failed 400 "Missing topic")]
  else if negb (truthy payload) then [HttpReply (Failed 400 "Missing payload")]
  else
    match publishToMqtt connected ack topic payload with
    | (sent, Resolved) => sent ++ [HttpReply (Published topic now)]
    | (sent, Rejected message) =>
        let code := if includes "not connected" message then 503 else 500 in
        sent ++ [HttpReply (Failed code message)]
    end.

(** The route: middleware, then handler. *)
Definition publishRoute (cfg : Config) (connected : bool)
    (authorization : option string) (body : list (string * JsValue))
    (ack : option string) (now : Z) : list Effect :=
  match authMiddleware (BRIDGE_SECRET cfg) authorization with
  | Next => publishHandler connected ack now body
  | Reject code error => [HttpReply (Failed code error)]
  end.

(** The cleanup timer: walk the map and delete what is older than the
    cooldown. *)
Definition cleanup (now : Z) (m : gmap string Z) : gmap string Z :=
  map_fold
    (fun key timestamp acc =>
       if now - timestamp >? PUBLISH_COOLDOWN then delete key acc else acc)
    m m.

(** [cmd.device_id?.device_mac] *)
Definition deviceMacOf (cmd : Command) : option string :=
  match device_id cmd with
  | Some d => device_mac d
  | None => None
  end.

Definition failedMark : PatchBody :=
  {| patch_status := Some "failed";
     patch_result := None;
     patch_error_message := Some (JStr "Device has no MAC address configured");
     patch_executed_at := None |}.

Definition commandPayload (cmd : Command) : JsValue :=
  JObj [("command_id", JStr (id cmd));
        ("type", command_type cmd);
        ("params", JObj [("fingerprint_id", fingerprint_id cmd);
                         ("member_id", member_id cmd)]);
        ("timestamp", JNum (date_created cmd))].

Definition commandTopic (deviceMac : string) : string :=
  "device/" ++ deviceMac ++ "/commands".

(** Body of the [for (const cmd of commands)] loop. [storeUp] says whether
    the store answers the PATCH, [ack] is the broker's answer to the
    publish, [now] the value of [Date.now()] after it. *)
Definition visitCommand (cmd : Command) (storeUp : bool) (ack : option string)
    (now : Z) (w : World) : World * list Effect :=
  match recentlyPublished w !! id cmd with
  | Some _ => (w, [])
  | None =>
      match deviceMacOf cmd with
      | None | Some "" =>
          (* the rejection of the PATCH is swallowed: .catch(() => {}) *)
          (match patchItem storeUp (id cmd) failedMark (items w) with
           | Some rows => set_items rows w
           | None => w
           end,
           [DirectusPatch (id cmd) failedMark])
      | Some deviceMac =>
          match publishToMqtt (mqttConnected w) ack
                  (JStr (commandTopic deviceMac)) (commandPayload cmd) with
          | (sent, Resolved) =>
              (set_recentlyPublished (<[id cmd := now]> (recentlyPublished w)) w,
               sent)
          | (sent, Rejected _) => (w, sent)
          end
      end
  end.

(** [pollPendingCommands] up to the start of its loop: the guard, the
    query, and the early return on an empty answer. [storeUp = false] is a
    failed GET, which the outer [catch] logs. *)
Definition pollPendingCommands (cfg : Config) (storeUp : bool) (w : World) : World :=
  if negb (directusApi cfg) || negb (mqttConnected w) || isPolling w then w
  else
    let w := set_isPolling true w in
    if storeUp then
      match fetchPending (items w) with
      | [] => set_isPolling false w
      | cmds => set_commands cmds w
      end
    else set_isPolling false w.

(** One turn of the loop of [pollPendingCommands]; after the last command
    the [finally] clause clears the flag. *)
Definition pollNext (storeUp : bool) (ack : option string) (now : Z)
    (w : World) : World * list Effect :=
  match commands w with
  | [] => (w, [])
  | cmd :: rest =>
      let '(w, done) := visitCommand cmd storeUp ack now w in
      let w := set_commands rest w in
      (match rest with
       | [] => set_isPolling false w
       | _ => w
       end, done)
  end.

End WithJson.

End Bridge.
Import Bridge.


(** ** mqtt-subscriber *)

Module Subscriber.

Definition validStatuses : list string := ["processing"; "completed"; "failed"].

(** [validStatuses.includes(status)]: strict comparison, so only a string
    can be found. *)
Definition includesStatus (status : JsValue) : option string :=
  match status with
  | JStr s => if existsb (String.eqb s) validStatuses then Some s else None
  | _ => None
  end.

Inductive Exception : Type :=
| SyntaxError     (* JSON.parse *)
| TypeError       (* destructuring null, a value no template literal can print *)
| AxiosError.     (* the PATCH was rejected *)

(** Completion of a block: it runs to its end or returns ([Normal]), or an
    exception leaves it ([Throw]). Requests already issued stay issued. *)
Inductive Completion (A : Type) : Type :=
| Normal (a : A)
| Throw (e : Exception).
Arguments Normal {A} a.
Arguments Throw {A} e.

(** The object [updateData]; [now] stands for [new Date().toISOString()]. *)
Definition updateData (status : string) (result error_message : JsValue)
    (now : Z) : PatchBody :=
  {| patch_status := Some status;
     patch_result := Some (or_else result JNull);
     patch_error_message := Some (or_else error_message JNull);
     patch_executed_at := Some now |}.

Section WithJson.
Context `{Json}.

(** The [try] block of the message handler. [rows] is the store's table,
    [storeUp] whether the store answers, [now] the clock for
    [executed_at]. *)
Definition handlerBody (topic message : string) (storeUp : bool) (now : Z)
    (rows : list Command) : list Effect * Completion (list Command) :=
  match JSON_parse message with
  | None => ([], Throw SyntaxError)
  | Some payload =>
      match getProp "command_id" payload, getProp "status" payload,
            getProp "result" payload, getProp "error_message" payload with
      | Some command_id, Some status, Some result, Some error_message =>
          if negb (truthy command_id) then ([], Normal rows)
          else
            match includesStatus status with
            | None =>
                (* console.warn(`... "${status}" ... ${command_id}`) *)
                match toStr status, toStr command_id with
                | Some _, Some _ => ([], Normal rows)
                | _, _ => ([], Throw TypeError)
                end
            | Some status =>
                (* console.log(`... ${command_id} -> ${status}`) *)
                match toStr command_id with
                | None => ([], Throw TypeError)
                | Some key =>
                    let body := updateData status result error_message now in
                    ([DirectusPatch key body],
                     match patchItem storeUp key body rows with
                     | Some rows' => Normal rows'
                     | None => Throw AxiosError
                     end)
                end
            end
      | _, _, _, _ => ([], Throw TypeError)
      end
  end.

(** [mqttClient.on('message', ...)]: the [catch] clause logs every
    exception of the block, whatever its kind, and the store is as the
    block left it. *)
Definition onMessage (topic message : string) (storeUp : bool) (now : Z)
    (rows : list Command) : list Effect * Completion (list Command) :=
  match handlerBody topic message storeUp now rows with
  | (sent, Normal rows') => (sent, Normal rows')
  | (sent, Throw _) => (sent, Normal rows)
  end.

End WithJson.

End Subscriber.
Import Subscriber.

(** ** The event loop *)

(** Callbacks of the two processes, each with what the outside world
    decides while it runs. A callback that awaits is one event where no
    other callback can change, during the await, what it goes on to use:
    the body of the polling loop reads [mqttConnected] and the entry of its
    command before it awaits and writes that same entry after, and neither
    the cleanup (the entry is absent) nor the trigger route touches it; two
    cycles never overlap ([isPolling]). The loop itself is split into its
    turns, so that connection events, timers, requests and status messages
    can come between two commands. *)
Inductive Event : Type :=
| OnConnect                       (* mqttClient.on('connect') *)
| OnClose                         (* mqttClient.on('close') *)
| CleanupTimer (now : Z)          (* setInterval(..., 60000) *)
| PollTimer (storeUp : bool)      (* setInterval(pollPendingCommands, POLL_INTERVAL) *)
| PollLoop (storeUp : bool) (ack : option string) (now : Z)
                                  (* pollPendingCommands resumes for one command *)
| HttpPublish (authorization : option string) (body : list (string * JsValue))
              (ack : option string) (now : Z)
                                  (* POST /api/mqtt/publish *)
| StatusMessage (topic message : string) (storeUp : bool) (now : Z)
                                  (* mqttClient.on('message') of the subscriber *)
| CommandCreated (c : Command).   (* the control plane stores a new command *)

Section WithJson.
Context `{Json}.

Definition step (cfg : Config) (ev : Event) (w : World) : World * list Effect :=
  match ev with
  | OnConnect => (set_mqttConnected true w, [])
  | OnClose => (set_mqttConnected false w, [])
  | CleanupTimer now =>
      (set_recentlyPublished (cleanup now (recentlyPublished w)) w, [])
  | PollTimer storeUp => (pollPendingCommands cfg storeUp w, [])
  | PollLoop storeUp ack now => pollNext storeUp ack now w
  | HttpPublish authorization body ack now =>
      (w, publishRoute cfg (mqttConnected w) authorization body ack now)
  | StatusMessage topic message storeUp now =>
      match onMessage topic message storeUp now (items w) with
      | (sent, Normal rows) => (set_items rows w, sent)
      | (sent, Throw _) => (w, sent)
      end
  | CommandCreated c =>
      (* item keys are unique: a key in use is refused *)
      (if hasItem (id c) (items w) then w else set_items (items w ++ [c]) w, [])
  end.

(** A run: the events in order, each paired with what it did. *)
Fixpoint run (cfg : Config) (evs : list Event) (w : World)
    : World * list (Event * list Effect) :=
  match evs with
  | [] => (w, [])
  | ev :: rest =>
      let '(w1, done) := step cfg ev w in
      let '(w2, log) := run cfg rest w1 in
      (w2, (ev, done) :: log)
  end.

End WithJson.

(** ** Observers of a run *)

Section Observers.
Context `{Json}.

(** The turns of the polling loop along a run: the identifier of the
    command each one visits, with what that turn did. *)
Fixpoint pollTrace (cfg : Config) (evs : list Event) (w : World)
    : list (string * list Effect) :=
  match evs with
  | [] => []
  | ev :: rest =>
      let '(w1, done) := step cfg ev w in
      match ev, commands w with
      | PollLoop _ _ _, cmd :: _ => (id cmd, done) :: pollTrace cfg rest w1
      | _, _ => pollTrace cfg rest w1
      end
  end.

End Observers.

(** A cleanup that runs while the entry written at [timestamp] is still
    inside the cooldown window. *)
Definition withinCooldown (timestamp : Z) (ev : Event) : Prop :=
  match ev with
  | CleanupTimer now => now - timestamp <= PUBLISH_COOLDOWN
  | _ => True
  end.

(** The command [key] is closed for the reconciler: the store holds it, no
    row under that key is pending, and the running loop has no visit of it
    left. *)
Definition settled (key : string) (w : World) : Prop :=
  hasItem key (items w) = true
  /\ (forall c, In c (items w) -> id c = key -> status c <> "pending")
  /\ (forall c, In c (commands w) -> id c <> key).

(** The command [key] can only be marked: the store holds it, the dedup map
    has no entry for it, and neither a row under that key nor a visit the
    running loop has left for it names a device address. *)
Definition unaddressed (key : string) (w : World) : Prop :=
  hasItem key (items w) = true
  /\ recentlyPublished w !! key = None
  /\ (forall c, In c (items w) -> id c = key ->
        deviceMacOf c = None \/ deviceMacOf c = Some "")
  /\ (forall c, In c (commands w) -> id c = key ->
        deviceMacOf c = None \/ deviceMacOf c = Some "").

(** Callbacks of the mqtt-bridge process. *)
Definition ofBridge (ev : Event) : bool :=
  match ev with
  | StatusMessage _ _ _ _ | CommandCreated _ => false
  | _ => true
  end.

(** [t] is [s] with its leftmost occurrence of [pattern] removed, or [s]
    itself when [pattern] does not occur in it. This follows the wording of
    the claim about the trigger's credential, to be compared with
    [replace]. *)
Definition removedFirst (pattern s t : string) : Prop :=
  (~ (exists pre post, s = pre ++ pattern ++ post) /\ t = s)
  \/ (exists pre post,
        s = pre ++ pattern ++ post /\ t = pre ++ post
        /\ forall pre' post',
             s = pre' ++ pattern ++ post' ->
             (String.length pre <= String.length pre')%nat).

(** ** A deployment to run the services on *)

Module Sample.

Definition quoted (s : string) : string :=
  String "034"%char (s ++ String "034"%char EmptyString).

(** A serializer that is exact on values whose strings need no escaping
    and whose numbers are below 10^21, where [pretty] prints a number as
    JavaScript does. *)
Fixpoint render (v : JsValue) : string :=
  match v with
  | JUndefined | JNull => "null"
  | JBool b => if b then "true" else "false"
  | JNum n => pretty n
  | JStr s => quoted s
  | JArr xs => "[" ++ String.concat "," (map render xs) ++ "]"
  | JObj fs =>
      "{" ++ String.concat ","
               (map (fun kv => quoted (fst kv) ++ ":" ++ render (snd kv)) fs)
          ++ "}"
  end.

Definition completedC2 : JsValue :=
  JObj [("command_id", JStr "C2"); ("status", JStr "completed");
        ("result", JObj [("ok", JBool true)])].

Definition heartbeat : JsValue := JObj [("uptime", JNum 12)].

Definition rebootingC2 : JsValue :=
  JObj [("command_id", JStr "C2"); ("status", JStr "rebooting")].

(** A reader that knows the messages of the examples and takes anything
    else for malformed. *)
Definition read (message : string) : option JsValue :=
  if String.eqb message (render completedC2) then Some completedC2
  else if String.eqb message (render heartbeat) then Some heartbeat
  else if String.eqb message (render rebootingC2) then Some rebootingC2
  else if String.eqb message "null" then Some JNull
  else None.

(** The numbers of the examples are small integers, which JavaScript
    prints in decimal as [pretty] does. *)
Definition json : Json :=
  {| JSON_parse := read; JSON_stringify := render; Number_toString := pretty |}.

Definition cfg : Config :=
  {| BRIDGE_SECRET := Some "s3cret"; DIRECTUS_TOKEN := Some "static-token" |}.

Definition turnstile : Device :=
  {| device_key := "D1"; device_mac := Some "AA:BB:CC";
     device_name := Some "Turnstile" |}.

Definition unplugged : Device :=
  {| device_key := "D2"; device_mac := None; device_name := Some "Spare" |}.

Definition pendingCommand (key : string) (d : Device) (created : Z) : Command :=
  {| id := key; command_type := JStr "enroll_fingerprint";
     fingerprint_id := JNum 7; member_id := JStr "M42";
     device_id := Some d; date_created := created;
     status := "pending"; result := JNull; error_message := JNull;
     executed_at := None |}.

Definition C1 : Command := pendingCommand "C1" unplugged 100.
Definition C2 : Command := pendingCommand "C2" turnstile 200.

(** A connected, idle bridge over a store with the given rows. *)
Definition idle (cache : gmap string Z) (rows : list Command) : World :=
  {| mqttConnected := true; isPolling := false; recentlyPublished := cache;
     commands := []; items := rows |}.

End Sample.

(** ** The health route, and what to look for in a run *)

(** Answer of [GET /health]. *)
Record Health : Type := {
  health_status : string;
  health_mqtt : string;
  health_polling : string;
  health_timestamp : Z
}.

(** Handler of [GET /health]; [now] is the clock when it answers. It
    changes nothing. *)
Definition health (cfg : Config) (w : World) (now : Z) : Health :=
  {| health_status := if mqttConnected w then "ok" else "degraded";
     health_mqtt := if mqttConnected w then "connected" else "disconnected";
     health_polling := if directusApi cfg then "active" else "disabled";
     health_timestamp := now |}.

Definition isMqttPublish (e : Effect) : bool :=
  match e with MqttPublish _ _ => true | _ => false end.

Definition isDirectusPatch (e : Effect) : bool :=
  match e with DirectusPatch _ _ => true | _ => false end.

Definition isPollLoop (ev : Event) : bool :=
  match ev with PollLoop _ _ _ => true | _ => false end.

Definition isPollTimer (ev : Event) : bool :=
  match ev with PollTimer _ => true | _ => false end.

Definition isOnConnect (ev : Event) : bool :=
  match ev with OnConnect => true | _ => false end.

(** What the connection callbacks leave in [mqttConnected], read off the
    events alone. *)
Definition lastConnection (evs : list Event) (connected : bool) : bool :=
  fold_left
    (fun b ev => match ev with
                 | OnConnect => true
                 | OnClose => false
                 | _ => b
                 end)
    evs connected.

(** The flag [isPolling] is up exactly while a loop has commands left, and
    a loop never holds more than the ten rows its query asks for. *)
Definition singleFlight (w : World) : Prop :=
  (isPolling w = true <-> commands w <> [])
  /\ (length (commands w) <= 10)%nat.

(** Every identifier the bridge holds, in the dedup map or in its running
    loop, is the key of a row of the store. *)
Definition knownToStore (w : World) : Prop :=
  (forall key ts, recentlyPublished w !! key = Some ts ->
                  hasItem key (items w) = true)
  /\ (forall c, In c (commands w) -> hasItem (id c) (items w) = true).

(** A row and what became of it: the fields no service writes are the same,
    and a row that has left "pending" has not come back. *)
Definition sameCommand (c c' : Command) : Prop :=
  id c' = id c
  /\ command_type c' = command_type c
  /\ fingerprint_id c' = fingerprint_id c
  /\ member_id c' = member_id c
  /\ device_id c' = device_id c
  /\ date_created c' = date_created c
  /\ (status c <> "pending" -> status c' <> "pending").

(** Characters of a key as the store issues them (an integer or a UUID):
    letters, digits, [-] and [_]. *)
Definition isKeyChar (c : ascii) : bool :=
  let n := nat_of_ascii c in
  (Nat.leb 48 n && Nat.leb n 57) || (Nat.leb 65 n && Nat.leb n 90)
  || (Nat.leb 97 n && Nat.leb n 122) || Nat.eqb n 45 || Nat.eqb n 95.

(** An identifier that the path [/items/device_commands/<key>] carries
    unchanged: it is not empty and holds none of the characters a URL
    gives a meaning to ([/], [?], [#], [%], [.] and the like). *)
Definition plainKey (key : string) : bool :=
  negb (String.eqb key "") && forallb isKeyChar (list_ascii_of_string key).

(** *** The trigger route at its [await] *)

Section Suspension.
Context `{Json}.



End Suspension.

(** A second reader, which also knows the report that C2 is being
    processed, and a bridge that was started without a store token. *)
Module More.

Definition processingC2 : JsValue :=
  JObj [("command_id", JStr "C2"); ("status", JStr "processing")].

Definition read (message : string) : option JsValue :=
  if String.eqb message (Sample.render processingC2) then Some processingC2
  else Sample.read message.

Definition json : Json :=
  {| JSON_parse := read; JSON_stringify := Sample.render;
     Number_toString := pretty |}.

Definition relayOnly : Config :=
  {| BRIDGE_SECRET := Some "s3cret"; DIRECTUS_TOKEN := None |}.

End More.

(** * Properties *)

(** ** The dedup map *)

Lemma cleanup_fold_lookup (now : Z) (m acc : gmap string Z) (k : string) :
  map_fold
    (fun key timestamp acc =>
       if now - timestamp >? PUBLISH_COOLDOWN then delete key acc else acc)
    acc m !! k
  = match m !! k with
    | Some timestamp =>
        if now - timestamp >? PUBLISH_COOLDOWN then None else acc !! k
    | None => acc !! k
    end.
Proof.
  revert k.
  apply (map_fold_weak_ind (fun r (m' : gmap string Z) => forall k,
    r !! k = match m' !! k with
             | Some timestamp =>
                 if now - timestamp >? PUBLISH_COOLDOWN then None else acc !! k
             | None => acc !! k
             end)).
  - intros k. by rewrite lookup_empty.
  - intros i x m' r Hfresh IH k.
    destruct (decide (k = i)) as [->|Hne].
    + rewrite lookup_insert_eq.
      destruct (now - x >? PUBLISH_COOLDOWN).
      * apply lookup_delete_eq.
      * rewrite IH, Hfresh. reflexivity.
    + rewrite lookup_insert_ne by congruence.
      destruct (now - x >? PUBLISH_COOLDOWN).
      * rewrite lookup_delete_ne by congruence. apply IH.
      * apply IH.
Qed.

Lemma cleanup_lookup (now : Z) (m : gmap string Z) (k : string) :
  cleanup now m !! k
  = match m !! k with
    | Some timestamp =>
        if now - timestamp >? PUBLISH_COOLDOWN then None else Some timestamp
    | None => None
    end.
Proof.
  unfold cleanup. rewrite cleanup_fold_lookup.
  destruct (m !! k) as [ts|] eqn:E; [|reflexivity].
  destruct (now - ts >? PUBLISH_COOLDOWN); reflexivity.
Qed.

Lemma cleanup_keeps_fresh (now ts : Z) (m : gmap string Z) (k : string) :
  m !! k = Some ts -> now - ts <= PUBLISH_COOLDOWN ->
  cleanup now m !! k = Some ts.
Proof.
  intros Hk Hage. rewrite cleanup_lookup, Hk.
  destruct (Z.gtb_spec (now - ts) PUBLISH_COOLDOWN); [lia|reflexivity].
Qed.

(** ** One turn of the polling loop *)

Section Reconciler.
Context `{Json}.

Lemma publishToMqtt_disconnected ack topic payload :
  publishToMqtt false ack topic payload
  = ([], Rejected "MQTT broker not connected").
Proof. reflexivity. Qed.

Lemma publishToMqtt_connected ack topic payload :
  exists message,
    publishToMqtt true ack topic payload
    = ([MqttPublish topic message],
       match ack with Some err => Rejected err | None => Resolved end).
Proof. unfold publishToMqtt; simpl. eauto. Qed.

Lemma visitCommand_cached cmd storeUp ack now w ts :
  recentlyPublished w !! id cmd = Some ts ->
  visitCommand cmd storeUp ack now w = (w, []).
Proof. intros Hin. unfold visitCommand. by rewrite Hin. Qed.

(** The three ways a visit can go, for a command that is not cached. *)
Lemma visitCommand_cases cmd storeUp ack now w :
  recentlyPublished w !! id cmd = None ->
  (* no address: one PATCH, no publish *)
  ((deviceMacOf cmd = None \/ deviceMacOf cmd = Some "") /\
   visitCommand cmd storeUp ack now w
   = (match patchItem storeUp (id cmd) failedMark (items w) with
      | Some rows => set_items rows w
      | None => w
      end, [DirectusPatch (id cmd) failedMark]))
  \/
  (* publish resolved: the entry is written *)
  (exists mac message, deviceMacOf cmd = Some mac /\ mac <> "" /\
     mqttConnected w = true /\ ack = None /\
     visitCommand cmd storeUp ack now w
     = (set_recentlyPublished (<[id cmd := now]> (recentlyPublished w)) w,
        [MqttPublish (JStr (commandTopic mac)) message]))
  \/
  (* publish rejected: nothing changes *)
  (exists mac sent, deviceMacOf cmd = Some mac /\ mac <> "" /\
     (mqttConnected w = false /\ sent = [] \/
      mqttConnected w = true /\ (exists err, ack = Some err) /\
      exists message, sent = [MqttPublish (JStr (commandTopic mac)) message]) /\
     visitCommand cmd storeUp ack now w = (w, sent)).
Proof.
  intros Hout. unfold visitCommand. rewrite Hout.
  destruct (deviceMacOf cmd) as [mac|] eqn:Hmac.
  - destruct mac as [|c mac'] eqn:Hm.
    + left. split; [by right|reflexivity].
    + right. rewrite <- Hm.
      assert (mac <> "") as Hne by (subst; discriminate).
      destruct (mqttConnected w) eqn:Hc.
      * destruct (publishToMqtt_connected ack (JStr (commandTopic mac))
                    (commandPayload cmd)) as [message ->].
        destruct ack as [err|].
        -- right. exists mac, [MqttPublish (JStr (commandTopic mac)) message].
           repeat split; try done. right. repeat split; eauto.
        -- left. exists mac, message. repeat split; done.
      * rewrite publishToMqtt_disconnected.
        right. exists mac, []. repeat split; try done. by left.
  - left. split; [by left|reflexivity].
Qed.

Lemma visitCommand_keeps_entry cmd storeUp ack now w i ts :
  recentlyPublished w !! i = Some ts ->
  recentlyPublished (visitCommand cmd storeUp ack now w).1 !! i = Some ts.
Proof.
  intros Hi.
  destruct (recentlyPublished w !! id cmd) as [ts'|] eqn:Hc.
  - by rewrite (visitCommand_cached _ _ _ _ _ _ Hc).
  - destruct (visitCommand_cases cmd storeUp ack now w Hc)
      as [[_ ->]|[(mac & message & _ & _ & _ & _ & ->)|(mac & sent & _ & _ & _ & ->)]];
      simpl; try done.
    + by destruct (patchItem _ _ _ _).
    + rewrite lookup_insert_ne; [done|]. intros Heq. rewrite Heq in Hc. congruence.
Qed.

Lemma pollNext_recentlyPublished storeUp ack now w cmd rest :
  commands w = cmd :: rest ->
  recentlyPublished (pollNext storeUp ack now w).1
  = recentlyPublished (visitCommand cmd storeUp ack now w).1.
Proof.
  intros Hc. unfold pollNext. rewrite Hc.
  destruct (visitCommand cmd storeUp ack now w) as [w1 done].
  by destruct rest.
Qed.

Lemma pollNext_effects storeUp ack now w cmd rest :
  commands w = cmd :: rest ->
  (pollNext storeUp ack now w).2 = (visitCommand cmd storeUp ack now w).2.
Proof.
  intros Hc. unfold pollNext. rewrite Hc.
  destruct (visitCommand cmd storeUp ack now w) as [w1 done].
  by destruct rest.
Qed.

Lemma pollNext_items storeUp ack now w cmd rest :
  commands w = cmd :: rest ->
  items (pollNext storeUp ack now w).1
  = items (visitCommand cmd storeUp ack now w).1.
Proof.
  intros Hc. unfold pollNext. rewrite Hc.
  destruct (visitCommand cmd storeUp ack now w) as [w1 done].
  by destruct rest.
Qed.

Lemma pollNext_commands storeUp ack now w cmd rest :
  commands w = cmd :: rest ->
  commands (pollNext storeUp ack now w).1 = rest.
Proof.
  intros Hc. unfold pollNext. rewrite Hc.
  destruct (visitCommand cmd storeUp ack now w) as [w1 done].
  by destruct rest.
Qed.

Lemma pollPendingCommands_recentlyPublished cfg storeUp w :
  recentlyPublished (pollPendingCommands cfg storeUp w) = recentlyPublished w.
Proof.
  unfold pollPendingCommands.
  destruct (negb (directusApi cfg) || negb (mqttConnected w) || isPolling w);
    [done|].
  destruct storeUp; [|done].
  by destruct (fetchPending _).
Qed.

Lemma pollPendingCommands_items cfg storeUp w :
  items (pollPendingCommands cfg storeUp w) = items w.
Proof.
  unfold pollPendingCommands.
  destruct (negb (directusApi cfg) || negb (mqttConnected w) || isPolling w);
    [done|].
  destruct storeUp; [|done].
  by destruct (fetchPending _).
Qed.

Lemma step_keeps_entry cfg ev w i ts :
  recentlyPublished w !! i = Some ts ->
  withinCooldown ts ev ->
  recentlyPublished (step cfg ev w).1 !! i = Some ts.
Proof.
  intros Hi Hev. destruct ev; simpl in *; try done.
  - by apply cleanup_keeps_fresh.
  - by rewrite pollPendingCommands_recentlyPublished.
  - destruct (commands w) as [|cmd rest] eqn:Hc.
    + unfold pollNext. by rewrite Hc.
    + rewrite (pollNext_recentlyPublished _ _ _ _ _ _ Hc).
      by apply visitCommand_keeps_entry.
  - by destruct (onMessage _ _ _ _ _) as [sent [rows|e]].
  - by destruct (hasItem _ _).
Qed.

(** While the entry of [i] survives, every turn of the loop that meets
    [i] does nothing at all. *)
Lemma pollTrace_cached cfg evs : forall w i ts,
  recentlyPublished w !! i = Some ts ->
  Forall (withinCooldown ts) evs ->
  forall done, (i, done) ∈ pollTrace cfg evs w -> done = [].
Proof.
  induction evs as [|ev evs IH]; intros w i ts Hi Hevs done Hin; simpl in Hin.
  - by apply elem_of_nil in Hin.
  - apply Forall_cons in Hevs as [Hev Hevs].
    pose proof (step_keeps_entry cfg ev w i ts Hi Hev) as Hi1.
    destruct (step cfg ev w) as [w1 did] eqn:Hstep. simpl in Hi1.
    assert (forall cmd rest, commands w = cmd :: rest -> id cmd = i ->
            forall su ack now, ev = PollLoop su ack now -> did = []) as Hskip.
    { intros cmd rest Hc <- su ack now ->. simpl in Hstep.
      pose proof (pollNext_effects su ack now w cmd rest Hc) as He.
      rewrite Hstep in He. simpl in He. rewrite He.
      by rewrite (visitCommand_cached _ _ _ _ _ _ Hi). }
    destruct ev; try (by eapply IH).
    destruct (commands w) as [|cmd rest] eqn:Hc; [by eapply IH|].
    apply elem_of_cons in Hin as [Heq|Hin]; [|by eapply IH].
    injection Heq as Hid Hdone. subst done. by eapply Hskip.
Qed.

End Reconciler.


(** ** Dedup cache and polling loop: the claims *)

Section DedupClaims.
Context `{Json}.

Lemma pollNext_published_records storeUp now w cmd rest topic message :
  commands w = cmd :: rest ->
  (pollNext storeUp None now w).2 = [MqttPublish topic message] ->
  recentlyPublished (pollNext storeUp None now w).1 !! id cmd = Some now.
Proof.
  intros Hc Hsent.
  rewrite (pollNext_effects _ _ _ _ _ _ Hc) in Hsent.
  rewrite (pollNext_recentlyPublished _ _ _ _ _ _ Hc).
  destruct (recentlyPublished w !! id cmd) as [ts|] eqn:Hcache.
  - rewrite (visitCommand_cached _ _ _ _ _ _ Hcache) in Hsent. discriminate.
  - destruct (visitCommand_cases cmd storeUp None now w Hcache)
      as [[_ Hv]|[(mac & msg & _ & _ & _ & _ & Hv)|(mac & sent & _ & _ & Hwhy & Hv)]];
      rewrite Hv in *; simpl in *.
    + discriminate.
    + apply lookup_insert_eq.
    + destruct Hwhy as [[_ ->]|(_ & [err Herr] & _)]; discriminate.
Qed.

(** C1. A command that a turn of the polling loop published with a clean
    acknowledgement at clock [now] has its entry written at [now]; through
    any later events whose cleanups all run inside the cooldown window of
    that entry (the rest of the cycle, other callbacks, a second cycle),
    every turn of the loop that meets the command again does nothing: no
    publish, no request. And in any state, a command that has an entry is
    skipped by the turn that visits it. *)
Theorem dispatched_command_skipped_within_cooldown
    (cfg : Config) (w : World) (cmd : Command) (rest : list Command)
    (storeUp : bool) (now : Z) (topic : JsValue) (message : string)
    (evs : list Event)
    (Hvisit : commands w = cmd :: rest)
    (Hsent : (step cfg (PollLoop storeUp None now) w).2
             = [MqttPublish topic message])
    (Hwindow : Forall (withinCooldown now) evs) :
  recentlyPublished (step cfg (PollLoop storeUp None now) w).1 !! id cmd
    = Some now
  /\ (forall done,
        (id cmd, done)
          ∈ pollTrace cfg evs (step cfg (PollLoop storeUp None now) w).1 ->
        done = [])
  /\ (forall w' cmd' rest' ts su ack now',
        commands w' = cmd' :: rest' ->
        recentlyPublished w' !! id cmd' = Some ts ->
        (step cfg (PollLoop su ack now') w').2 = []
        /\ recentlyPublished (step cfg (PollLoop su ack now') w').1
           = recentlyPublished w'
        /\ items (step cfg (PollLoop su ack now') w').1 = items w').
Proof.
  simpl in *.
  pose proof (pollNext_published_records _ _ _ _ _ _ _ Hvisit Hsent) as Hentry.
  split; [exact Hentry|]. split.
  - intros done Hin. eapply pollTrace_cached; eauto.
  - intros w' cmd' rest' ts su ack now' Hc Hcache.
    rewrite (pollNext_effects _ _ _ _ _ _ Hc),
            (pollNext_recentlyPublished _ _ _ _ _ _ Hc),
            (pollNext_items _ _ _ _ _ _ Hc),
            (visitCommand_cached _ _ _ _ _ _ Hcache).
    done.
Qed.

End DedupClaims.

Section DedupExamples.
#[local] Existing Instance Sample.json.

(** First cycle publishes C2 at 1000; a cleanup at 5000 and a second cycle
    at 6000 follow. *)
Lemma dispatched_command_skipped_within_cooldown_witness :
  let w := (step Sample.cfg (PollTimer true) (Sample.idle ∅ [Sample.C2])).1 in
  let evs := [CleanupTimer 5000; PollTimer true; PollLoop true None 6000] in
  commands w = [Sample.C2]
  /\ pollTrace Sample.cfg evs (step Sample.cfg (PollLoop true None 1000) w).1
     = [("C2", [])]
  /\ forall done,
       ("C2", done)
         ∈ pollTrace Sample.cfg evs (step Sample.cfg (PollLoop true None 1000) w).1 ->
       done = [].
Proof.
  intros w evs.
  split; [reflexivity|]. split; [vm_compute; reflexivity|].
  refine (proj1 (proj2 (dispatched_command_skipped_within_cooldown
            Sample.cfg w Sample.C2 [] true 1000
            (JStr "device/AA:BB:CC/commands")
            (JSON_stringify (commandPayload Sample.C2)) evs _ _ _))).
  - reflexivity.
  - vm_compute. reflexivity.
  - subst evs. repeat constructor. unfold withinCooldown, PUBLISH_COOLDOWN. lia.
Defined.

(** C2, evaluated on the code. C2 is published at clock 1000 and never
    acknowledged, so it stays pending. The cleanup timer fires at clock
    30000, when the entry is 29000 ms old, and keeps it; its next tick is a
    minute away. The cycle at clock 32000 meets C2 with an entry that is
    31000 ms old, older than the cooldown, and skips it all the same:
    [recentlyPublished.has] looks at no timestamp. *)
Theorem expired_entry_still_skipped :
  let w := Sample.idle ∅ [Sample.C2] in
  let evs := [PollTimer true; PollLoop true None 1000; CleanupTimer 30000;
              PollTimer true; PollLoop true None 32000] in
  32000 - 1000 > PUBLISH_COOLDOWN
  /\ pollTrace Sample.cfg evs w
     = [("C2", [MqttPublish (JStr "device/AA:BB:CC/commands")
                  (JSON_stringify (commandPayload Sample.C2))]);
        ("C2", [])]
  /\ map status (items (run Sample.cfg evs w).1) = ["pending"]
  /\ recentlyPublished (run Sample.cfg evs w).1 !! "C2" = Some 1000.
Proof.
  intros w evs. split; [reflexivity|].
  repeat split; vm_compute; reflexivity.
Qed.

End DedupExamples.

(** ** The store *)

Lemma patchItem_Some storeUp key b rows rows' :
  patchItem storeUp key b rows = Some rows' ->
  storeUp = true /\ hasItem key rows = true /\
  rows' = map (fun c => if String.eqb (id c) key then applyPatch b c else c) rows.
Proof.
  unfold patchItem. destruct storeUp, (hasItem key rows); simpl; try discriminate.
  intros [= <-]. done.
Qed.

Lemma patchItem_accepts key b rows :
  hasItem key rows = true ->
  patchItem true key b rows
  = Some (map (fun c => if String.eqb (id c) key then applyPatch b c else c) rows).
Proof. intros Hk. unfold patchItem. by rewrite Hk. Qed.

Lemma patchItem_down key b rows : patchItem false key b rows = None.
Proof. reflexivity. Qed.

Lemma hasItem_In key rows :
  hasItem key rows = true <-> exists c, In c rows /\ id c = key.
Proof.
  unfold hasItem. rewrite existsb_exists.
  split; intros (c & Hin & Hc); exists c; split; try done.
  - by apply String.eqb_eq.
  - by apply String.eqb_eq.
Qed.

(** A PATCH keeps every row in place and keeps its key: a row of the new
    table is a row of the old one, untouched or overwritten. *)
Lemma patchItem_rows storeUp key b rows rows' c' :
  patchItem storeUp key b rows = Some rows' ->
  In c' rows' ->
  exists c, In c rows /\ id c' = id c /\
    (id c <> key /\ c' = c \/ id c = key /\ c' = applyPatch b c).
Proof.
  intros Hp Hin. apply patchItem_Some in Hp as (_ & _ & ->).
  apply in_map_iff in Hin as (c & <- & Hin). exists c. split; [done|].
  destruct (String.eqb_spec (id c) key) as [Heq|Hne].
  - split; [reflexivity|]. by right.
  - split; [reflexivity|]. by left.
Qed.

Lemma patchItem_hasItem storeUp key b rows rows' k :
  patchItem storeUp key b rows = Some rows' ->
  hasItem k rows' = hasItem k rows.
Proof.
  intros Hp. apply patchItem_Some in Hp as (_ & _ & ->).
  unfold hasItem. induction rows as [|c rows IH]; [reflexivity|].
  simpl. rewrite IH. f_equal.
  by destruct (String.eqb (id c) key).
Qed.

Lemma fetchPending_In c rows :
  In c (fetchPending rows) -> In c rows /\ status c = "pending".
Proof.
  unfold fetchPending. intros Hin.
  apply list_elem_of_In in Hin.
  apply (subseteq_take 10) in Hin.
  rewrite merge_sort_Permutation in Hin.
  apply list_elem_of_In, filter_In in Hin as [Hin Hp].
  split; [done|]. by apply String.eqb_eq.
Qed.

(** ** The status consumer *)

Section Consumer.
Context `{Json}.

Lemma includesStatus_Some v s :
  includesStatus v = Some s ->
  v = JStr s /\ (s = "processing" \/ s = "completed" \/ s = "failed").
Proof.
  unfold includesStatus. destruct v; try discriminate.
  destruct (existsb (String.eqb s0) validStatuses) eqn:E; [|discriminate].
  intros [= <-]. split; [done|].
  apply existsb_exists in E as (x & Hx & Heq). apply String.eqb_eq in Heq.
  subst x. simpl in Hx. intuition.
Qed.

(** What the handler can do to the table: nothing, or one accepted PATCH
    whose status is one of the three valid ones. *)
Lemma onMessage_cases topic message storeUp now rows :
  (exists sent, onMessage topic message storeUp now rows = (sent, Normal rows))
  \/ exists key b rows' s,
       onMessage topic message storeUp now rows
       = ([DirectusPatch key b], Normal rows')
       /\ patchItem storeUp key b rows = Some rows'
       /\ patch_status b = Some s
       /\ (s = "processing" \/ s = "completed" \/ s = "failed")
       /\ patch_executed_at b = Some now.
Proof.
  unfold onMessage, handlerBody.
  destruct (JSON_parse message) as [payload|]; [|left; eauto].
  destruct (getProp "command_id" payload) as [command_id|]; [|left; eauto].
  destruct (getProp "status" payload) as [status|]; [|left; eauto].
  destruct (getProp "result" payload) as [result|]; [|left; eauto].
  destruct (getProp "error_message" payload) as [error_message|]; [|left; eauto].
  destruct (truthy command_id); simpl; [|left; eauto].
  destruct (includesStatus status) as [s|] eqn:Hs.
  2:{ left. destruct (toStr status), (toStr command_id); eauto. }
  apply includesStatus_Some in Hs as [_ Hs].
  destruct (toStr command_id) as [key|]; [|left; eauto].
  destruct (patchItem storeUp _ _ rows) as [rows'|] eqn:Hp; [|left; eauto].
  right. do 4 eexists. repeat split; eauto.
Qed.

(** The handler never lets an exception out. *)
Lemma onMessage_completes topic message storeUp now rows :
  exists sent rows', onMessage topic message storeUp now rows = (sent, Normal rows').
Proof.
  destruct (onMessage_cases topic message storeUp now rows)
    as [[sent ->]|(key & b & rows' & s & -> & _)]; eauto.
Qed.

End Consumer.

(** ** What the reconciler writes *)

Section ReconcilerWrites.
Context `{Json}.

Lemma visitCommand_items cmd storeUp ack now w :
  items (visitCommand cmd storeUp ack now w).1 = items w
  \/ (recentlyPublished w !! id cmd = None
      /\ (deviceMacOf cmd = None \/ deviceMacOf cmd = Some "")
      /\ patchItem storeUp (id cmd) failedMark (items w)
         = Some (items (visitCommand cmd storeUp ack now w).1)).
Proof.
  destruct (recentlyPublished w !! id cmd) as [ts|] eqn:Hc.
  - left. by rewrite (visitCommand_cached _ _ _ _ _ _ Hc).
  - destruct (visitCommand_cases cmd storeUp ack now w Hc)
      as [[Hmac ->]|[(mac & message & _ & _ & _ & _ & ->)|(mac & sent & _ & _ & _ & ->)]];
      simpl; try by left.
    destruct (patchItem storeUp (id cmd) failedMark (items w)) as [rows|] eqn:Hp.
    + right. done.
    + by left.
Qed.

Lemma step_settled cfg ev w key :
  settled key w -> settled key (step cfg ev w).1.
Proof.
  intros (Hhas & Hrows & Hloop). unfold settled.
  destruct ev; simpl; try done.
  - (* PollTimer *)
    rewrite pollPendingCommands_items. split; [done|]. split; [done|].
    unfold pollPendingCommands.
    destruct (negb (directusApi cfg) || negb (mqttConnected w) || isPolling w);
      [done|].
    destruct storeUp; [|done]. simpl.
    destruct (fetchPending (items w)) as [|c0 l] eqn:Hf; [done|].
    intros c Hin Hid. change (In c (c0 :: l)) in Hin. rewrite <- Hf in Hin.
    apply fetchPending_In in Hin as [Hin Hp]. by apply (Hrows c).
  - (* PollLoop *)
    destruct (commands w) as [|cmd rest] eqn:Hc.
    { unfold pollNext. rewrite Hc. simpl. by rewrite Hc. }
    rewrite (pollNext_items _ _ _ _ _ _ Hc), (pollNext_commands _ _ _ _ _ _ Hc).
    assert (forall c, In c rest -> id c <> key) as Hrest.
    { intros c Hin. apply Hloop. by right. }
    destruct (visitCommand_items cmd storeUp ack now w) as [->|(_ & _ & Hp)];
      [done|].
    split; [by rewrite (patchItem_hasItem _ _ _ _ _ _ Hp)|]. split; [|done].
    intros c' Hin Hid.
    destruct (patchItem_rows _ _ _ _ _ _ Hp Hin)
      as (c & Hc0 & Hsame & [[_ ->]|[_ ->]]).
    + by apply Hrows.
    + simpl. discriminate.
  - (* StatusMessage *)
    destruct (onMessage_cases topic message storeUp now (items w))
      as [[sent ->]|(k & b & rows' & s & -> & Hp & Hs & Hvalid & _)]; simpl.
    { by destruct w. }
    split; [by rewrite (patchItem_hasItem _ _ _ _ _ _ Hp)|]. split; [|done].
    intros c' Hin Hid.
    destruct (patchItem_rows _ _ _ _ _ _ Hp Hin)
      as (c & Hc0 & Hsame & [[_ ->]|[_ ->]]).
    + by apply Hrows.
    + simpl. rewrite Hs. simpl.
      destruct Hvalid as [-> | [-> | ->]]; discriminate.
  - (* CommandCreated *)
    destruct (hasItem (id c) (items w)) eqn:Hnew; [done|]. simpl.
    split.
    + unfold hasItem in *. rewrite existsb_app, Hhas. reflexivity.
    + split; [|done]. intros c' Hin Hid.
      apply in_app_or in Hin as [Hin|[Heq|Hnil]]; [by apply Hrows| |done].
      subst c'. apply hasItem_In in Hhas as (c0 & Hc0 & Hk).
      assert (hasItem (id c) (items w) = true) as Hdup; [|congruence].
      apply hasItem_In. exists c0. split; congruence.
Qed.

(** A settled command is never visited again. *)
Lemma pollTrace_settled cfg evs : forall w key,
  settled key w -> forall done, (key, done) ∉ pollTrace cfg evs w.
Proof.
  induction evs as [|ev evs IH]; intros w key Hs done Hin; simpl in Hin.
  - by apply elem_of_nil in Hin.
  - pose proof (step_settled cfg ev w key Hs) as Hs1.
    destruct (step cfg ev w) as [w1 did]. simpl in Hs1.
    destruct ev; try (by eapply IH).
    destruct (commands w) as [|cmd rest] eqn:Hc; [by eapply IH|].
    apply elem_of_cons in Hin as [Heq|Hin]; [|by eapply IH].
    injection Heq as Hid _.
    destruct Hs as (_ & _ & Hloop). apply (Hloop cmd); [|done].
    rewrite Hc. by left.
Qed.

(** A settled command stays settled through every run. *)
Lemma run_settled cfg evs : forall w key,
  settled key w -> settled key (run cfg evs w).1.
Proof.
  induction evs as [|ev evs IH]; intros w key Hs; simpl; [done|].
  pose proof (step_settled cfg ev w key Hs) as Hs1.
  destruct (step cfg ev w) as [w1 did]. simpl in Hs1.
  specialize (IH w1 key Hs1).
  by destruct (run cfg evs w1) as [w2 log].
Qed.

(** No service writes the device of a row. *)
Lemma patchItem_deviceMacOf storeUp key b rows rows' c' :
  patchItem storeUp key b rows = Some rows' ->
  In c' rows' ->
  exists c, In c rows /\ id c' = id c /\ deviceMacOf c' = deviceMacOf c.
Proof.
  intros Hp Hin.
  destruct (patchItem_rows _ _ _ _ _ _ Hp Hin)
    as (c & Hc & Hid & [[_ ->]|[_ ->]]); exists c; done.
Qed.

Lemma visitCommand_unaddressed cmd storeUp ack now w :
  recentlyPublished w !! id cmd = None ->
  deviceMacOf cmd = None \/ deviceMacOf cmd = Some "" ->
  visitCommand cmd storeUp ack now w
  = (match patchItem storeUp (id cmd) failedMark (items w) with
     | Some rows => set_items rows w
     | None => w
     end, [DirectusPatch (id cmd) failedMark]).
Proof.
  intros Hfresh Hmac.
  destruct (visitCommand_cases cmd storeUp ack now w Hfresh)
    as [[_ Hv]|[(mac & msg & Hm & Hne & _)|(mac & sent & Hm & Hne & _)]];
    [done| |]; destruct Hmac; congruence.
Qed.

(** A visit writes no entry but the one of the command it visits. *)
Lemma visitCommand_other_entry cmd storeUp ack now w key :
  id cmd <> key ->
  recentlyPublished (visitCommand cmd storeUp ack now w).1 !! key
  = recentlyPublished w !! key.
Proof.
  intros Hne.
  destruct (recentlyPublished w !! id cmd) as [ts|] eqn:Hc.
  - by rewrite (visitCommand_cached _ _ _ _ _ _ Hc).
  - destruct (visitCommand_cases cmd storeUp ack now w Hc)
      as [[_ ->]|[(mac & message & _ & _ & _ & _ & ->)|(mac & sent & _ & _ & _ & ->)]];
      simpl; try done.
    + by destruct (patchItem _ _ _ _).
    + by rewrite lookup_insert_ne.
Qed.

Lemma step_unaddressed cfg ev w key :
  unaddressed key w -> unaddressed key (step cfg ev w).1.
Proof.
  intros (Hhas & Hfresh & Hrows & Hloop). unfold unaddressed.
  destruct ev; simpl; try done.
  - (* CleanupTimer *)
    split; [done|]. split; [|done]. by rewrite cleanup_lookup, Hfresh.
  - (* PollTimer *)
    rewrite pollPendingCommands_items, pollPendingCommands_recentlyPublished.
    split; [done|]. split; [done|]. split; [done|].
    unfold pollPendingCommands.
    destruct (negb (directusApi cfg) || negb (mqttConnected w) || isPolling w);
      [done|].
    destruct storeUp; [|done]. simpl.
    destruct (fetchPending (items w)) as [|c0 l] eqn:Hf; [done|].
    intros c Hin Hid. change (In c (c0 :: l)) in Hin. rewrite <- Hf in Hin.
    apply fetchPending_In in Hin as [Hin Hp]. by apply (Hrows c).
  - (* PollLoop *)
    destruct (commands w) as [|cmd rest] eqn:Hc.
    { unfold pollNext. rewrite Hc. simpl. by rewrite Hc. }
    rewrite (pollNext_items _ _ _ _ _ _ Hc), (pollNext_commands _ _ _ _ _ _ Hc),
            (pollNext_recentlyPublished _ _ _ _ _ _ Hc).
    assert (forall c, In c rest -> id c = key ->
            deviceMacOf c = None \/ deviceMacOf c = Some "") as Hrest.
    { intros c Hin. apply Hloop. by right. }
    assert (recentlyPublished (visitCommand cmd storeUp ack now w).1 !! key = None)
      as Hfresh1.
    { destruct (decide (id cmd = key)) as [Heq|Hne].
      - rewrite visitCommand_unaddressed.
        + simpl. by destruct (patchItem _ _ _ _).
        + by rewrite Heq.
        + apply Hloop; [by left|done].
      - by rewrite visitCommand_other_entry. }
    destruct (visitCommand_items cmd storeUp ack now w) as [->|(_ & _ & Hp)];
      [done|].
    split; [by rewrite (patchItem_hasItem _ _ _ _ _ _ Hp)|].
    split; [done|]. split; [|done].
    intros c' Hin Hid.
    destruct (patchItem_deviceMacOf _ _ _ _ _ _ Hp Hin) as (c & Hc0 & Hsame & ->).
    apply Hrows; [done|congruence].
  - (* StatusMessage *)
    destruct (onMessage_cases topic message storeUp now (items w))
      as [[sent ->]|(k & b & rows' & s & -> & Hp & _)]; simpl.
    { by destruct w. }
    split; [by rewrite (patchItem_hasItem _ _ _ _ _ _ Hp)|].
    split; [done|]. split; [|done].
    intros c' Hin Hid.
    destruct (patchItem_deviceMacOf _ _ _ _ _ _ Hp Hin) as (c & Hc0 & Hsame & ->).
    apply Hrows; [done|congruence].
  - (* CommandCreated *)
    destruct (hasItem (id c) (items w)) eqn:Hnew; [done|]. simpl.
    split.
    + unfold hasItem in *. rewrite existsb_app, Hhas. reflexivity.
    + split; [done|]. split; [|done]. intros c' Hin Hid.
      apply in_app_or in Hin as [Hin|[Heq|Hnil]]; [by apply Hrows| |done].
      subst c'. congruence.
Qed.

(** While a command can only be marked, every visit of it sends the mark. *)
Lemma pollTrace_unaddressed cfg evs : forall w key,
  unaddressed key w ->
  forall done, (key, done) ∈ pollTrace cfg evs w ->
  done = [DirectusPatch key failedMark].
Proof.
  induction evs as [|ev evs IH]; intros w key Hu done Hin; simpl in Hin.
  - by apply elem_of_nil in Hin.
  - pose proof (step_unaddressed cfg ev w key Hu) as Hu1.
    destruct (step cfg ev w) as [w1 did] eqn:Hstep. simpl in Hu1.
    destruct ev; try (by eapply IH).
    destruct (commands w) as [|cmd rest] eqn:Hc; [by eapply IH|].
    apply elem_of_cons in Hin as [Heq|Hin]; [|by eapply IH].
    injection Heq as Hid Hdone. subst done key.
    destruct Hu as (_ & Hfresh & _ & Hloop).
    simpl in Hstep.
    pose proof (pollNext_effects storeUp ack now w cmd rest Hc) as He.
    rewrite Hstep in He. simpl in He. rewrite He.
    rewrite visitCommand_unaddressed; [done|done|].
    apply Hloop; [|done]. rewrite Hc. by left.
Qed.

End ReconcilerWrites.

(** ** Reconciler: the claims *)

Section ReconcilerClaims.
Context `{Json}.

(** C6, as the code has it. A turn of the polling loop that visits a
    stored command with no entry in the dedup map and no device address
    issues exactly one PATCH, the failed mark, and no publish, whatever the
    store answers. When the store accepts it, every row under that key is
    [failed] with the error message; through any later events no turn of
    the loop visits the command again, and no row under that key is ever
    pending again. When the store rejects it, the rejection is swallowed:
    the table and the dedup map are as they were, and, the rows under that
    key having no device address either, every later turn of the loop that
    visits the command sends the failed mark again and publishes nothing;
    if the turn was the last of its cycle, the next cycle that reaches the
    store is answered from that same table. *)
Theorem unresolved_device_marked_failed_once
    (cfg : Config) (w : World) (cmd : Command) (rest : list Command)
    (ack : option string) (now : Z)
    (Hvisit : commands w = cmd :: rest)
    (Hbatch : forall c, In c rest -> id c <> id cmd)
    (Hfresh : recentlyPublished w !! id cmd = None)
    (Hmac : deviceMacOf cmd = None \/ deviceMacOf cmd = Some "")
    (Hstored : hasItem (id cmd) (items w) = true) :
  (forall storeUp,
     (step cfg (PollLoop storeUp ack now) w).2
     = [DirectusPatch (id cmd) failedMark])
  /\ (forall c,
        In c (items (step cfg (PollLoop true ack now) w).1) ->
        id c = id cmd ->
        status c = "failed"
        /\ error_message c = JStr "Device has no MAC address configured")
  /\ hasItem (id cmd) (items (step cfg (PollLoop true ack now) w).1) = true
  /\ (forall evs done,
        (id cmd, done)
          ∉ pollTrace cfg evs (step cfg (PollLoop true ack now) w).1)
  /\ (forall evs c,
        In c (items (run cfg evs (step cfg (PollLoop true ack now) w).1).1) ->
        id c = id cmd ->
        status c <> "pending")
  /\ items (step cfg (PollLoop false ack now) w).1 = items w
  /\ recentlyPublished (step cfg (PollLoop false ack now) w).1
     = recentlyPublished w
  /\ ((forall c, In c (items w) -> id c = id cmd ->
         deviceMacOf c = None \/ deviceMacOf c = Some "") ->
      forall evs done,
        (id cmd, done)
          ∈ pollTrace cfg evs (step cfg (PollLoop false ack now) w).1 ->
        done = [DirectusPatch (id cmd) failedMark])
  /\ (rest = [] -> directusApi cfg = true -> mqttConnected w = true ->
      commands (step cfg (PollTimer true)
                  (step cfg (PollLoop false ack now) w).1).1
      = fetchPending (items w)).
Proof.
  simpl.
  pose proof (fun storeUp =>
    visitCommand_unaddressed cmd storeUp ack now w Hfresh Hmac) as Hv.
  assert (forall c,
    In c (items (pollNext true ack now w).1) -> id c = id cmd ->
    status c = "failed"
    /\ error_message c = JStr "Device has no MAC address configured") as Hrows.
  { intros c' Hin Hid.
    rewrite (pollNext_items _ _ _ _ _ _ Hvisit), Hv,
            (patchItem_accepts _ _ _ Hstored) in Hin. simpl in Hin.
    apply in_map_iff in Hin as (c & <- & Hin).
    destruct (String.eqb_spec (id c) (id cmd)) as [Heq|Hne]; [done|].
    by destruct Hne. }
  assert (hasItem (id cmd) (items (pollNext true ack now w).1) = true) as Hhas.
  { rewrite (pollNext_items _ _ _ _ _ _ Hvisit), Hv,
            (patchItem_accepts _ _ _ Hstored).
    cbn [fst items set_items].
    rewrite (patchItem_hasItem _ _ _ _ _ _ (patchItem_accepts _ failedMark _ Hstored)).
    exact Hstored. }
  assert (settled (id cmd) (pollNext true ack now w).1) as Hsettled.
  { split; [exact Hhas|]. split.
    - intros c Hin Hid. destruct (Hrows c Hin Hid) as [-> _]. discriminate.
    - by rewrite (pollNext_commands _ _ _ _ _ _ Hvisit). }
  assert (items (pollNext false ack now w).1 = items w) as Hitems.
  { by rewrite (pollNext_items _ _ _ _ _ _ Hvisit), Hv, patchItem_down. }
  assert (recentlyPublished (pollNext false ack now w).1 = recentlyPublished w)
    as Hcache.
  { by rewrite (pollNext_recentlyPublished _ _ _ _ _ _ Hvisit), Hv, patchItem_down. }
  split; [|split; [exact Hrows|split; [exact Hhas|split; [|split; [|split;
    [exact Hitems|split; [exact Hcache|split]]]]]]].
  - intros storeUp. by rewrite (pollNext_effects _ _ _ _ _ _ Hvisit), Hv.
  - intros evs done. by apply pollTrace_settled.
  - intros evs c Hin Hid.
    destruct (run_settled cfg evs _ _ Hsettled) as (_ & Hnever & _).
    by apply (Hnever c).
  - intros Hstore evs done. apply pollTrace_unaddressed.
    split; [by rewrite Hitems|]. split; [by rewrite Hcache|].
    split; [by rewrite Hitems|].
    rewrite (pollNext_commands _ _ _ _ _ _ Hvisit).
    intros c Hin Hid. by destruct (Hbatch c Hin).
  - intros Hlast Hapi Hconn. subst rest.
    assert (pollNext false ack now w
            = (set_isPolling false (set_commands [] w),
               [DirectusPatch (id cmd) failedMark])) as ->.
    { unfold pollNext. by rewrite Hvisit, Hv, patchItem_down. }
    unfold pollPendingCommands. cbn [fst]. simpl. rewrite Hapi, Hconn. simpl.
    by destruct (fetchPending (items w)).
Qed.

(** C8. A turn of the polling loop whose publish fails, because the bridge
    is disconnected or because the broker answers with an error, leaves
    the store and the dedup map as they were and issues no PATCH: the
    command is still pending and still uncached, so the visit of the next
    cycle goes to the dispatcher again. And whenever a turn of the loop
    changes the dedup map, it published with a clean acknowledgement and
    wrote exactly the entry of the command it visited. *)
Theorem failed_dispatch_stays_pending_and_uncached
    (cfg : Config) (w : World) (cmd : Command) (rest : list Command)
    (storeUp : bool) (ack : option string) (now : Z) (mac : string)
    (Hvisit : commands w = cmd :: rest)
    (Hfresh : recentlyPublished w !! id cmd = None)
    (Hmac : deviceMacOf cmd = Some mac)
    (Hne : mac <> "")
    (Hfail : mqttConnected w = false \/ exists err, ack = Some err) :
  items (step cfg (PollLoop storeUp ack now) w).1 = items w
  /\ recentlyPublished (step cfg (PollLoop storeUp ack now) w).1
     = recentlyPublished w
  /\ (forall key b,
        ~ In (DirectusPatch key b) (step cfg (PollLoop storeUp ack now) w).2)
  /\ (forall w2 rest2 su now2,
        commands w2 = cmd :: rest2 ->
        recentlyPublished w2 !! id cmd
          = recentlyPublished (step cfg (PollLoop storeUp ack now) w).1 !! id cmd ->
        mqttConnected w2 = true ->
        exists message,
          (step cfg (PollLoop su None now2) w2).2
          = [MqttPublish (JStr (commandTopic mac)) message])
  /\ (forall w' su ack' now',
        recentlyPublished (step cfg (PollLoop su ack' now') w').1
          <> recentlyPublished w' ->
        ack' = None /\ mqttConnected w' = true
        /\ exists cmd' rest' topic message,
             commands w' = cmd' :: rest'
             /\ (step cfg (PollLoop su ack' now') w').2
                = [MqttPublish topic message]
             /\ recentlyPublished (step cfg (PollLoop su ack' now') w').1
                = <[id cmd' := now']> (recentlyPublished w')).
Proof.
  simpl.
  assert (exists sent,
    visitCommand cmd storeUp ack now w = (w, sent)
    /\ forall key b, ~ In (DirectusPatch key b) sent) as (sent & Hv & Hsent).
  { destruct (visitCommand_cases cmd storeUp ack now w Hfresh)
      as [[Hno _]|[(m & msg & _ & _ & Hc & Ha & _)|(m & sent & _ & _ & Hwhy & Hv)]].
    - destruct Hno; congruence.
    - destruct Hfail as [?|[err ?]]; congruence.
    - exists sent. split; [done|]. intros key b Hin.
      destruct Hwhy as [[_ ->]|(_ & _ & msg & ->)]; simpl in Hin;
        intuition discriminate. }
  rewrite (pollNext_items _ _ _ _ _ _ Hvisit),
          (pollNext_recentlyPublished _ _ _ _ _ _ Hvisit),
          (pollNext_effects _ _ _ _ _ _ Hvisit), Hv. simpl.
  split; [done|]. split; [done|]. split; [done|]. split.
  - intros w2 rest2 su now2 Hc2 Hsame Hconn.
    rewrite Hfresh in Hsame.
    rewrite (pollNext_effects _ _ _ _ _ _ Hc2).
    destruct (visitCommand_cases cmd su None now2 w2 Hsame)
      as [[Hno _]|[(m & msg & Hm & _ & _ & _ & ->)|(m & s & _ & _ & Hwhy & _)]].
    + destruct Hno; congruence.
    + simpl. exists msg. congruence.
    + destruct Hwhy as [[? _]|(_ & [err ?] & _)]; congruence.
  - intros w' su ack' now' Hchanged.
    destruct (commands w') as [|cmd' rest'] eqn:Hc'.
    { unfold pollNext in Hchanged. by rewrite Hc' in Hchanged. }
    rewrite (pollNext_recentlyPublished _ _ _ _ _ _ Hc') in Hchanged.
    rewrite (pollNext_recentlyPublished _ _ _ _ _ _ Hc'),
            (pollNext_effects _ _ _ _ _ _ Hc').
    destruct (recentlyPublished w' !! id cmd') as [ts|] eqn:Hcache.
    { by rewrite (visitCommand_cached _ _ _ _ _ _ Hcache) in Hchanged. }
    destruct (visitCommand_cases cmd' su ack' now' w' Hcache)
      as [[_ Hv']|[(m & msg & _ & _ & Hconn & Hack & Hv')|(m & s & _ & _ & _ & Hv')]];
      rewrite Hv' in *; simpl in *.
    + by destruct (patchItem _ _ _ _).
    + repeat split; try done. by exists cmd', rest', (JStr (commandTopic m)), msg.
    + done.
Qed.

(** C5, as the code has it. A callback of the bridge leaves the table of
    the store as it is, with one exception: the turn of the polling loop
    that visits an uncached command without device address sends the
    failed mark, which overwrites [status] and [error_message] of that
    command when the store accepts it. No callback of the bridge changes a
    [result] or an [executed_at]. *)
Theorem bridge_writes_only_the_failed_mark
    (cfg : Config) (ev : Event) (w : World)
    (Hbridge : ofBridge ev = true) :
  (items (step cfg ev w).1 = items w
   \/ exists cmd rest storeUp ack now,
        ev = PollLoop storeUp ack now
        /\ commands w = cmd :: rest
        /\ recentlyPublished w !! id cmd = None
        /\ (deviceMacOf cmd = None \/ deviceMacOf cmd = Some "")
        /\ patchItem storeUp (id cmd) failedMark (items w)
           = Some (items (step cfg ev w).1))
  /\ map result (items (step cfg ev w).1) = map result (items w)
  /\ map executed_at (items (step cfg ev w).1) = map executed_at (items w)
  /\ map id (items (step cfg ev w).1) = map id (items w).
Proof.
  assert (items (step cfg ev w).1 = items w
   \/ exists cmd rest storeUp ack now,
        ev = PollLoop storeUp ack now
        /\ commands w = cmd :: rest
        /\ recentlyPublished w !! id cmd = None
        /\ (deviceMacOf cmd = None \/ deviceMacOf cmd = Some "")
        /\ patchItem storeUp (id cmd) failedMark (items w)
           = Some (items (step cfg ev w).1)) as Hcases.
  { destruct ev; simpl in *; try discriminate; try by left.
    - left. apply pollPendingCommands_items.
    - destruct (commands w) as [|cmd rest] eqn:Hc.
      { left. unfold pollNext. by rewrite Hc. }
      rewrite (pollNext_items _ _ _ _ _ _ Hc).
      destruct (visitCommand_items cmd storeUp ack now w)
        as [->|(Hfresh & Hmac & Hp)]; [by left|].
      right. by exists cmd, rest, storeUp, ack, now. }
  split; [exact Hcases|].
  destruct Hcases as [->|(cmd & rest & storeUp & ack & now & _ & _ & _ & _ & Hp)];
    [done|].
  apply patchItem_Some in Hp as (_ & _ & ->).
  rewrite !map_map.
  repeat split; apply map_ext; intros c;
    by destruct (String.eqb (id c) (id cmd)).
Qed.

End ReconcilerClaims.

Section ReconcilerExamples.
#[local] Existing Instance Sample.json.

(** The cycle over C1 (no address) and C2. When the store accepts the
    mark, C1 is marked once and no later run visits it or finds it pending;
    when the store rejects it, every later visit of C1 sends the mark
    again. *)
Lemma unresolved_device_marked_failed_once_witness :
  let w := (step Sample.cfg (PollTimer true) (Sample.idle ∅ [Sample.C1; Sample.C2])).1 in
  commands w = [Sample.C1; Sample.C2]
  /\ (step Sample.cfg (PollLoop true None 1000) w).2
     = [DirectusPatch "C1" failedMark]
  /\ map status (items (step Sample.cfg (PollLoop true None 1000) w).1)
     = ["failed"; "pending"]
  /\ (forall evs done,
        ("C1", done)
          ∉ pollTrace Sample.cfg evs (step Sample.cfg (PollLoop true None 1000) w).1)
  /\ (forall evs c,
        In c (items (run Sample.cfg evs
                       (step Sample.cfg (PollLoop true None 1000) w).1).1) ->
        id c = "C1" -> status c <> "pending")
  /\ (forall evs done,
        ("C1", done)
          ∈ pollTrace Sample.cfg evs (step Sample.cfg (PollLoop false None 1000) w).1 ->
        done = [DirectusPatch "C1" failedMark]).
Proof.
  intros w.
  split; [reflexivity|]. split; [reflexivity|]. split; [reflexivity|].
  assert (forall c, In c [Sample.C2] -> id c <> "C1") as Hbatch.
  { intros c [<-|[]]. discriminate. }
  assert (forall c, In c [Sample.C1; Sample.C2] -> id c = "C1" ->
          deviceMacOf c = None \/ deviceMacOf c = Some "") as Hstore.
  { intros c [<-|[<-|[]]]; [by left|discriminate]. }
  pose proof (unresolved_device_marked_failed_once
                Sample.cfg w Sample.C1 [Sample.C2] None 1000
                eq_refl Hbatch eq_refl (or_introl eq_refl) eq_refl)
    as (_ & _ & _ & Hvisited & Hpending & _ & _ & Hretry & _).
  split; [exact Hvisited|]. split; [exact Hpending|]. exact (Hretry Hstore).
Defined.

(** C6 as stated fails when the store rejects the PATCH (here it answers
    the query and refuses the update, twice): C1 is still pending after
    the first cycle, and the second cycle visits it and sends the mark
    again. *)
Lemma unresolved_device_retried_when_patch_rejected :
  let w := Sample.idle ∅ [Sample.C1] in
  let evs := [PollTimer true; PollLoop false None 1000;
              PollTimer true; PollLoop false None 4000] in
  deviceMacOf Sample.C1 = None
  /\ pollTrace Sample.cfg evs w
     = [("C1", [DirectusPatch "C1" failedMark]);
        ("C1", [DirectusPatch "C1" failedMark])]
  /\ map status (items (run Sample.cfg evs w).1) = ["pending"].
Proof. intros w evs. repeat split; vm_compute; reflexivity. Qed.

(** The bridge loses its connection while the loop is about to visit C2:
    the publish is rejected and nothing is recorded. *)
Lemma failed_dispatch_stays_pending_and_uncached_witness :
  let w := (run Sample.cfg [PollTimer true; OnClose] (Sample.idle ∅ [Sample.C2])).1 in
  commands w = [Sample.C2]
  /\ mqttConnected w = false
  /\ items (step Sample.cfg (PollLoop true None 1000) w).1 = [Sample.C2]
  /\ recentlyPublished (step Sample.cfg (PollLoop true None 1000) w).1 = ∅.
Proof.
  intros w.
  split; [reflexivity|]. split; [reflexivity|].
  pose proof (failed_dispatch_stays_pending_and_uncached
    Sample.cfg w Sample.C2 [] true None 1000 "AA:BB:CC"
    eq_refl eq_refl eq_refl ltac:(discriminate) (or_introl eq_refl))
    as (Hitems & Hcache & _).
  split; [exact Hitems|exact Hcache].
Defined.

(** A turn of the loop that marks C1 is a callback of the bridge. *)
Lemma bridge_writes_only_the_failed_mark_witness :
  let w := (step Sample.cfg (PollTimer true) (Sample.idle ∅ [Sample.C1])).1 in
  let ev := PollLoop true None 1000 in
  ofBridge ev = true
  /\ map result (items (step Sample.cfg ev w).1) = map result (items w)
  /\ map executed_at (items (step Sample.cfg ev w).1) = map executed_at (items w).
Proof.
  intros w ev. split; [reflexivity|].
  pose proof (bridge_writes_only_the_failed_mark Sample.cfg ev w eq_refl)
    as (_ & Hresult & Hexec & _).
  split; [exact Hresult|exact Hexec].
Defined.

(** C5 as stated fails: with no status report anywhere in the run, the
    reconciler overwrites [status] and [error_message] of C1. *)
Lemma reconciler_writes_status_without_report :
  let w := Sample.idle ∅ [Sample.C1] in
  let evs := [PollTimer true; PollLoop true None 1000] in
  forallb ofBridge evs = true
  /\ map status (items w) = ["pending"]
  /\ map error_message (items w) = [JNull]
  /\ map status (items (run Sample.cfg evs w).1) = ["failed"]
  /\ map error_message (items (run Sample.cfg evs w).1)
     = [JStr "Device has no MAC address configured"].
Proof. intros w evs. repeat split; vm_compute; reflexivity. Qed.

End ReconcilerExamples.

(** ** Strings *)

Lemma append_nil (t : string) : "" ++ t = t.
Proof. reflexivity. Qed.

Lemma append_cons (c : ascii) (s t : string) :
  String c s ++ t = String c (s ++ t).
Proof. reflexivity. Qed.

Lemma append_length (s t : string) :
  String.length (s ++ t) = (String.length s + String.length t)%nat.
Proof.
  induction s as [|c s IH]; [reflexivity|].
  rewrite append_cons. simpl. by rewrite IH.
Qed.

Lemma prefix_split (p s : string) :
  String.prefix p s = true <-> exists post, s = p ++ post.
Proof.
  revert p. induction s as [|d s IH]; intros [|c p]; simpl.
  - split; [by exists ""|done].
  - split; [discriminate|]. intros [post Hp]. discriminate.
  - split; [intros _; by exists (String d s)|done].
  - destruct (Ascii.ascii_dec c d) as [->|Hne].
    + rewrite IH. split; intros [post Hp]; exists post.
      * rewrite append_cons. congruence.
      * rewrite append_cons in Hp. congruence.
    + split; [discriminate|]. intros [post Hp].
      rewrite append_cons in Hp. congruence.
Qed.

Lemma dropChars_append (p post : string) :
  dropChars (String.length p) (p ++ post) = post.
Proof.
  induction p as [|c p IH]; [by destruct post|].
  rewrite append_cons. exact IH.
Qed.

Lemma append_same_length (a b c d : string) :
  a ++ b = c ++ d -> String.length a = String.length c -> a = c /\ b = d.
Proof.
  revert c. induction a as [|x a IH]; intros [|y c];
    rewrite ?append_cons, ?append_nil; simpl; try discriminate.
  - done.
  - intros [= -> Heq] [= Hlen]. destruct (IH c Heq Hlen) as [-> ->]. done.
Qed.

Lemma replace_unfold (pattern replacement s : string) :
  replace pattern replacement s
  = if String.prefix pattern s
    then replacement ++ dropChars (String.length pattern) s
    else match s with
         | EmptyString => EmptyString
         | String c s' => String c (replace pattern replacement s')
         end.
Proof. destruct s; reflexivity. Qed.

(** [replace pattern ""] does what the wording says. *)
Lemma replace_removedFirst (pattern s : string) :
  removedFirst pattern s (replace pattern "" s).
Proof.
  induction s as [|c s IH]; rewrite replace_unfold.
  - destruct (String.prefix pattern "") eqn:Hp.
    + apply prefix_split in Hp as [post Hp].
      destruct pattern; [|discriminate]. simpl.
      right. exists "", "". repeat split; try done; intros; simpl; lia.
    + left. split; [|done]. intros (pre & post & Heq).
      destruct pre; [|discriminate]. rewrite append_nil in Heq.
      assert (String.prefix pattern "" = true) as Hp'
        by (apply prefix_split; eauto).
      congruence.
  - destruct (String.prefix pattern (String c s)) eqn:Hp.
    + apply prefix_split in Hp as [post Hp].
      rewrite append_nil, Hp, dropChars_append.
      right. exists "", post. repeat split; try done; intros; simpl; lia.
    + assert (forall pre post, String c s = pre ++ pattern ++ post ->
              exists pre', pre = String c pre' /\ s = pre' ++ pattern ++ post)
        as Hshift.
      { intros [|d pre] post Heq.
        - rewrite append_nil in Heq.
          assert (String.prefix pattern (String c s) = true) as Hp'
            by (apply prefix_split; eauto).
          congruence.
        - rewrite append_cons in Heq. injection Heq as -> ->. eauto. }
      destruct IH as [[Hnone ->]|(pre & post & Hs & -> & Hmin)].
      * left. split; [|done]. intros (pre & post & Heq).
        destruct (Hshift _ _ Heq) as (pre' & -> & Hs). apply Hnone. eauto.
      * right. exists (String c pre), post. repeat split.
        -- rewrite append_cons. by rewrite <- Hs.
        -- intros pre' post' Heq.
           destruct (Hshift _ _ Heq) as (pre'' & -> & Hs').
           simpl. apply le_n_S. eauto.
Qed.

Lemma removedFirst_unique (pattern s t1 t2 : string) :
  removedFirst pattern s t1 -> removedFirst pattern s t2 -> t1 = t2.
Proof.
  intros [[Hn1 ->]|(pre1 & post1 & Hs1 & -> & Hmin1)]
         [[Hn2 ->]|(pre2 & post2 & Hs2 & -> & Hmin2)].
  - done.
  - destruct Hn1; eauto.
  - destruct Hn2; eauto.
  - assert (String.length pre1 = String.length pre2) as Hlen.
    { apply Nat.le_antisymm; eauto. }
    rewrite Hs1 in Hs2.
    destruct (append_same_length _ _ _ _ Hs2 Hlen) as [-> Hrest].
    apply String.app_inj in Hrest. by rewrite Hrest.
Qed.

Lemma replace_spec (pattern s t : string) :
  replace pattern "" s = t <-> removedFirst pattern s t.
Proof.
  split.
  - intros <-. apply replace_removedFirst.
  - intros Ht. eapply removedFirst_unique; [apply replace_removedFirst|exact Ht].
Qed.

(** ** The trigger route: the claims *)

Lemma authMiddleware_configured (sec : string) (authorization : option string) :
  sec <> "" ->
  authMiddleware (Some sec) authorization
  = match authorization with
    | Some h =>
        if String.eqb (replace "Bearer " "" h) sec
        then Next else Reject 401 "Unauthorized"
    | None => Reject 401 "Unauthorized"
    end.
Proof. intros Hne. destruct sec; [done|]. by destruct authorization. Qed.

(** C10, as the code has it. With a configured (non-empty) secret, the
    middleware lets a request through exactly when the Authorization
    header, its leftmost occurrence of "Bearer " removed, is the secret.
    So "Bearer " followed by the secret passes; the bare secret passes
    when "Bearer " does not occur in the secret itself; a request without
    the header is answered 401, as is every request that does not pass. *)
Theorem bearer_check_compares_stripped_header
    (sec : string) (Hset : sec <> "") :
  (forall authorization,
     authMiddleware (Some sec) authorization = Next
     <-> exists h, authorization = Some h /\ removedFirst "Bearer " h sec)
  /\ authMiddleware (Some sec) (Some ("Bearer " ++ sec)) = Next
  /\ (~ (exists pre post, sec = pre ++ "Bearer " ++ post) ->
      authMiddleware (Some sec) (Some sec) = Next)
  /\ authMiddleware (Some sec) None = Reject 401 "Unauthorized"
  /\ (forall authorization,
        authMiddleware (Some sec) authorization = Next
        \/ authMiddleware (Some sec) authorization = Reject 401 "Unauthorized").
Proof.
  assert (forall h,
    authMiddleware (Some sec) (Some h) = Next <-> removedFirst "Bearer " h sec)
    as Hiff.
  { intros h. rewrite authMiddleware_configured by done.
    rewrite <- replace_spec.
    destruct (String.eqb_spec (replace "Bearer " "" h) sec); split; done. }
  split; [|split; [|split; [|split]]].
  - intros [h|].
    + rewrite Hiff. split; [eauto|]. by intros (h' & [= <-] & Hr).
    + rewrite authMiddleware_configured by done.
      split; [discriminate|]. by intros (h & [=] & _).
  - apply Hiff. right. exists "", sec. repeat split; try done; intros; simpl; lia.
  - intros Hnone. apply Hiff. by left.
  - by rewrite authMiddleware_configured.
  - intros authorization. rewrite authMiddleware_configured by done.
    destruct authorization as [h|]; [|by right].
    destruct (String.eqb _ sec); [by left|by right].
Qed.

Lemma bearer_check_compares_stripped_header_witness :
  "s3cret" <> ""
  /\ authMiddleware (Some "s3cret") (Some "Bearer s3cret") = Next
  /\ authMiddleware (Some "s3cret") None = Reject 401 "Unauthorized".
Proof.
  split; [discriminate|].
  pose proof (bearer_check_compares_stripped_header "s3cret" ltac:(discriminate))
    as (_ & Hbearer & _ & Hmissing & _).
  split; [exact Hbearer|exact Hmissing].
Defined.

(** C10 as stated fails for a secret in which "Bearer " occurs after the
    start: the header is the bare secret, it has no "Bearer " prefix, and
    the request is rejected, because the occurrence inside the secret is
    what gets removed. *)
Lemma bare_secret_containing_scheme_rejected :
  let secret := "xBearer y" in
  String.prefix "Bearer " secret = false
  /\ replace "Bearer " "" secret = "xy"
  /\ authMiddleware (Some secret) (Some secret) = Reject 401 "Unauthorized".
Proof. repeat split. Qed.

Section TriggerClaims.
Context `{Json}.

Lemma truthy_false (v : JsValue) :
  truthy v = false
  <-> v = JUndefined \/ v = JNull \/ v = JBool false \/ v = JNum 0 \/ v = JStr "".
Proof.
  destruct v as [| |b|n|s| |]; simpl.
  - split; [tauto|done].
  - split; [tauto|done].
  - destruct b; split; try tauto; try discriminate;
      intros [?|[?|[?|[?|?]]]]; congruence.
  - destruct (Z.eqb_spec n 0) as [->|Hn]; simpl; split; try tauto;
      try discriminate; intros [?|[?|[?|[?|?]]]]; congruence.
  - destruct (String.eqb_spec s "") as [->|Hs]; simpl; split; try tauto;
      try discriminate; intros [?|[?|[?|[?|?]]]]; congruence.
  - split; [discriminate|]. intros [?|[?|[?|[?|?]]]]; congruence.
  - split; [discriminate|]. intros [?|[?|[?|[?|?]]]]; congruence.
Qed.

(** C9, as the code has it. A trigger request whose topic or payload is
    falsy (absent, [null], [false], [0] or the empty string) is answered
    400 by the handler, with no publish and no change of state; a request
    stopped by the middleware is not published either. A request whose
    topic and payload are both truthy goes on to [publishToMqtt] and is
    not answered 400. *)
Theorem falsy_topic_or_payload_answered_400
    (cfg : Config) (w : World) (authorization : option string)
    (body : list (string * JsValue)) (ack : option string) (now : Z) :
  (forall v, truthy v = false
     <-> v = JUndefined \/ v = JNull \/ v = JBool false \/ v = JNum 0
         \/ v = JStr "")
  /\ (truthy (lookupField "topic" body) = false
      \/ truthy (lookupField "payload" body) = false ->
      (exists error,
         publishHandler (mqttConnected w) ack now body
         = [HttpReply (Failed 400 error)]
         /\ (error = "Missing topic" \/ error = "Missing payload"))
      /\ (authMiddleware (BRIDGE_SECRET cfg) authorization = Next ->
          exists error,
            step cfg (HttpPublish authorization body ack now) w
            = (w, [HttpReply (Failed 400 error)]))
      /\ (forall topic message,
            ~ In (MqttPublish topic message)
                 (step cfg (HttpPublish authorization body ack now) w).2)
      /\ (step cfg (HttpPublish authorization body ack now) w).1 = w)
  /\ (truthy (lookupField "topic" body) = true ->
      truthy (lookupField "payload" body) = true ->
      exists reply,
        publishHandler (mqttConnected w) ack now body
        = ((publishToMqtt (mqttConnected w) ack (lookupField "topic" body)
              (lookupField "payload" body)).1 ++ [HttpReply reply])%list
        /\ forall error, reply <> Failed 400 error).
Proof.
  split; [exact truthy_false|]. split.
  - intros Hfalsy.
    assert (exists error,
      publishHandler (mqttConnected w) ack now body
      = [HttpReply (Failed 400 error)]
      /\ (error = "Missing topic" \/ error = "Missing payload"))
      as (error & Hh & Herr).
    { unfold publishHandler.
      destruct (truthy (lookupField "topic" body)); simpl.
      - destruct Hfalsy as [? | ->]; [done|]. simpl. eauto.
      - eauto. }
    split; [eauto|]. simpl. unfold publishRoute. rewrite Hh.
    split; [intros ->; eauto|]. split; [|done].
    intros topic message.
    destruct (authMiddleware _ _); simpl; intuition discriminate.
  - intros Ht Hp. unfold publishHandler. rewrite Ht, Hp. simpl.
    destruct (publishToMqtt _ _ _ _) as [sent [|err]]; simpl.
    + eexists. split; [reflexivity|]. discriminate.
    + eexists. split; [reflexivity|].
      intros error. destruct (includes "not connected" err); discriminate.
Qed.

(** C4. While the bridge is disconnected: [publishToMqtt] rejects with
    "MQTT broker not connected" and never calls the broker client; the
    trigger route answers a request that passed the middleware and the
    validation with 503 and that message, sends nothing and keeps nothing;
    a turn of the polling loop that reaches the dispatcher sends nothing
    and records nothing; and the poll timer starts no cycle. *)
Theorem disconnected_dispatch_fails_without_delivery
    (cfg : Config) (w : World)
    (Hdown : mqttConnected w = false) :
  (forall ack topic payload,
     publishToMqtt (mqttConnected w) ack topic payload
     = ([], Rejected "MQTT broker not connected"))
  /\ (forall authorization body ack now,
        authMiddleware (BRIDGE_SECRET cfg) authorization = Next ->
        truthy (lookupField "topic" body) = true ->
        truthy (lookupField "payload" body) = true ->
        step cfg (HttpPublish authorization body ack now) w
        = (w, [HttpReply (Failed 503 "MQTT broker not connected")]))
  /\ (forall authorization body ack now topic message,
        ~ In (MqttPublish topic message)
             (step cfg (HttpPublish authorization body ack now) w).2)
  /\ (forall cmd rest mac storeUp ack now,
        commands w = cmd :: rest ->
        recentlyPublished w !! id cmd = None ->
        deviceMacOf cmd = Some mac -> mac <> "" ->
        (step cfg (PollLoop storeUp ack now) w).2 = []
        /\ recentlyPublished (step cfg (PollLoop storeUp ack now) w).1
           = recentlyPublished w
        /\ items (step cfg (PollLoop storeUp ack now) w).1 = items w)
  /\ (forall storeUp, step cfg (PollTimer storeUp) w = (w, [])).
Proof.
  split; [|split; [|split; [|split]]].
  - intros. by rewrite Hdown.
  - intros authorization body ack now Hauth Ht Hp. simpl.
    unfold publishRoute, publishHandler.
    by rewrite Hauth, Ht, Hp, Hdown.
  - intros authorization body ack now topic message. simpl.
    unfold publishRoute, publishHandler. rewrite Hdown.
    destruct (authMiddleware _ _); [|simpl; intuition discriminate].
    destruct (truthy (lookupField "topic" body)); simpl;
      [|intuition discriminate].
    destruct (truthy (lookupField "payload" body)); simpl;
      intuition discriminate.
  - intros cmd rest mac storeUp ack now Hc Hfresh Hmac Hne. simpl.
    rewrite (pollNext_effects _ _ _ _ _ _ Hc),
            (pollNext_recentlyPublished _ _ _ _ _ _ Hc),
            (pollNext_items _ _ _ _ _ _ Hc).
    destruct (visitCommand_cases cmd storeUp ack now w Hfresh)
      as [[Hno _]|[(m & msg & _ & _ & Hconn & _)|(m & s & _ & _ & Hwhy & ->)]].
    + destruct Hno; congruence.
    + congruence.
    + destruct Hwhy as [[_ ->]|[Hconn _]]; [done|congruence].
  - intros storeUp. simpl. unfold pollPendingCommands.
    rewrite Hdown. by rewrite orb_true_r.
Qed.

End TriggerClaims.

Section TriggerExamples.
#[local] Existing Instance Sample.json.

(** A request without payload, correctly authenticated. *)
Lemma falsy_topic_or_payload_answered_400_witness :
  let body := [("topic", JStr "device/AA:BB:CC/commands")] in
  let w := Sample.idle ∅ [] in
  truthy (lookupField "payload" body) = false
  /\ step Sample.cfg (HttpPublish (Some "Bearer s3cret") body None 1000) w
     = (w, [HttpReply (Failed 400 "Missing payload")])
  /\ forall topic message,
       ~ In (MqttPublish topic message)
            (step Sample.cfg (HttpPublish (Some "Bearer s3cret") body None 1000) w).2.
Proof.
  intros body w. split; [reflexivity|]. split; [reflexivity|].
  pose proof (falsy_topic_or_payload_answered_400
    Sample.cfg w (Some "Bearer s3cret") body None 1000) as (_ & Hfalsy & _).
  destruct (Hfalsy (or_intror eq_refl)) as (_ & _ & Hnone & _).
  exact Hnone.
Defined.

(** C9 as stated fails for an empty payload that is an object: it is
    truthy, so the request is published and answered with success. *)
Lemma empty_object_payload_is_published :
  let body := [("topic", JStr "device/AA:BB:CC/commands"); ("payload", JObj [])] in
  let w := Sample.idle ∅ [] in
  lookupField "payload" body = JObj []
  /\ step Sample.cfg (HttpPublish (Some "Bearer s3cret") body None 1000) w
     = (w, [MqttPublish (JStr "device/AA:BB:CC/commands") "{}";
            HttpReply (Published (JStr "device/AA:BB:CC/commands") 1000)]).
Proof. intros body w. split; reflexivity. Qed.

(** A valid, authenticated request while the bridge is disconnected. *)
Lemma disconnected_dispatch_fails_without_delivery_witness :
  let body := [("topic", JStr "device/AA:BB:CC/commands");
               ("payload", JObj [("type", JStr "reboot")])] in
  let w := (step Sample.cfg OnClose (Sample.idle ∅ [Sample.C2])).1 in
  mqttConnected w = false
  /\ step Sample.cfg (HttpPublish (Some "Bearer s3cret") body None 1000) w
     = (w, [HttpReply (Failed 503 "MQTT broker not connected")]).
Proof.
  intros body w. split; [reflexivity|].
  pose proof (disconnected_dispatch_fails_without_delivery Sample.cfg w eq_refl)
    as (_ & Hroute & _).
  apply Hroute; reflexivity.
Defined.

End TriggerExamples.

(** ** The status consumer: the claims *)

Lemma set_items_same (w : World) : set_items (items w) w = w.
Proof. by destruct w. Qed.

Lemma applyPatch_updateData_twice s r e now1 now2 c :
  applyPatch (updateData s r e now2) (applyPatch (updateData s r e now1) c)
  = applyPatch (updateData s r e now2) c.
Proof. reflexivity. Qed.

Lemma hasItem_patched key b rows k :
  hasItem k (map (fun c => if String.eqb (id c) key then applyPatch b c else c) rows)
  = hasItem k rows.
Proof.
  unfold hasItem. induction rows as [|c rows IH]; [reflexivity|].
  simpl. rewrite IH. f_equal. by destruct (String.eqb (id c) key).
Qed.

(** Compare two images of the row [c], by whether [key] is its key. *)
Ltac same_row c key :=
  destruct (String.eqb_spec (id c) key) as [Heq|Hne]; simpl;
  [ by rewrite Heq, String.eqb_refl
  | by destruct (String.eqb_spec (id c) key) ].

Section ConsumerClaims.
Context `{Json}.

(** A message is either dropped whatever the store and the clock are, or
    it is one PATCH whose body depends on the clock only through
    [executed_at]. *)
Lemma onMessage_shape topic message :
  (forall storeUp now rows,
     onMessage topic message storeUp now rows = ([], Normal rows))
  \/ exists key s r e,
       forall storeUp now rows,
         onMessage topic message storeUp now rows
         = ([DirectusPatch key (updateData s r e now)],
            Normal (match patchItem storeUp key (updateData s r e now) rows with
                    | Some rows' => rows'
                    | None => rows
                    end)).
Proof.
  unfold onMessage, handlerBody.
  destruct (JSON_parse message) as [payload|]; [|by left].
  destruct (getProp "command_id" payload) as [command_id|]; [|by left].
  destruct (getProp "status" payload) as [status|]; [|by left].
  destruct (getProp "result" payload) as [result|]; [|by left].
  destruct (getProp "error_message" payload) as [error_message|]; [|by left].
  destruct (truthy command_id); simpl; [|by left].
  destruct (includesStatus status) as [s|].
  2:{ left. intros. by destruct (toStr status), (toStr command_id). }
  destruct (toStr command_id) as [key|]; [|by left].
  right. exists key, s, result, error_message.
  intros storeUp now rows. by destruct (patchItem _ _ _ _).
Qed.

Lemma step_StatusMessage_items cfg topic message storeUp now w :
  items (step cfg (StatusMessage topic message storeUp now) w).1
  = match (onMessage topic message storeUp now (items w)).2 with
    | Normal rows => rows
    | Throw _ => items w
    end.
Proof.
  simpl. by destruct (onMessage _ _ _ _ _) as [sent [rows|e]].
Qed.


(** C7. A status message that does not parse, or whose payload has no
    truthy [command_id], or whose [status] is none of "processing",
    "completed" and "failed", is dropped: the handler completes normally,
    sends no request, and the table and the whole state are unchanged. And
    whatever the message, the handler completes normally. *)
Theorem unusable_status_message_dropped
    (cfg : Config) (w : World) (topic message : string) (storeUp : bool)
    (now : Z)
    (Hbad : JSON_parse message = None
            \/ exists payload,
                 JSON_parse message = Some payload
                 /\ ((forall v, getProp "command_id" payload = Some v ->
                                truthy v = false)
                     \/ (forall s, getProp "status" payload = Some (JStr s) ->
                                   s <> "processing" /\ s <> "completed"
                                   /\ s <> "failed"))) :
  onMessage topic message storeUp now (items w) = ([], Normal (items w))
  /\ step cfg (StatusMessage topic message storeUp now) w = (w, [])
  /\ forall topic' message' storeUp' now' rows,
       exists sent rows',
         onMessage topic' message' storeUp' now' rows = (sent, Normal rows').
Proof.
  assert (onMessage topic message storeUp now (items w)
          = ([], Normal (items w))) as Hdrop.
  { unfold onMessage, handlerBody.
    destruct Hbad as [->|(payload & -> & Hwhy)]; [done|].
    destruct (getProp "command_id" payload) as [command_id|]; [|done].
    destruct (getProp "status" payload) as [status|]; [|done].
    destruct (getProp "result" payload) as [result|]; [|done].
    destruct (getProp "error_message" payload) as [error_message|]; [|done].
    destruct Hwhy as [Hid|Hstatus].
    - by rewrite (Hid command_id eq_refl).
    - destruct (truthy command_id); [|done]. simpl.
      destruct (includesStatus status) as [s|] eqn:Hs.
      2:{ by destruct (toStr status), (toStr command_id). }
      apply includesStatus_Some in Hs as [-> Hvalid].
      destruct (Hstatus s eq_refl) as (? & ? & ?).
      destruct Hvalid as [?|[?|?]]; congruence. }
  split; [exact Hdrop|]. split.
  - simpl. rewrite Hdrop. by rewrite set_items_same.
  - intros. apply onMessage_completes.
Qed.

End ConsumerClaims.

Section ConsumerExamples.
#[local] Existing Instance Sample.json.


(** A message that does not parse, a heartbeat (no command identifier), a
    status outside the three, and the payload [null]. *)
Lemma unusable_status_message_dropped_witness :
  let w := Sample.idle ∅ [Sample.C2] in
  JSON_parse "uptime=12" = None
  /\ step Sample.cfg (StatusMessage "device/AA:BB:CC/status" "uptime=12" true 1000) w
     = (w, [])
  /\ step Sample.cfg (StatusMessage "device/AA:BB:CC/status" "null" true 1000) w
     = (w, [])
  /\ step Sample.cfg
       (StatusMessage "device/AA:BB:CC/status" (Sample.render Sample.heartbeat) true 1000) w
     = (w, [])
  /\ step Sample.cfg
       (StatusMessage "device/AA:BB:CC/status" (Sample.render Sample.rebootingC2) true 1000) w
     = (w, []).
Proof.
  intros w. split; [reflexivity|]. split; [|split; [|split]].
  - refine (proj1 (proj2 (unusable_status_message_dropped
      Sample.cfg w "device/AA:BB:CC/status" "uptime=12" true 1000 _))).
    left. reflexivity.
  - refine (proj1 (proj2 (unusable_status_message_dropped
      Sample.cfg w "device/AA:BB:CC/status" "null" true 1000 _))).
    right. exists JNull. split; [reflexivity|].
    left. intros v [=].
  - refine (proj1 (proj2 (unusable_status_message_dropped
      Sample.cfg w "device/AA:BB:CC/status" (Sample.render Sample.heartbeat)
      true 1000 _))).
    right. exists Sample.heartbeat. split; [reflexivity|].
    left. intros v [= <-]. reflexivity.
  - refine (proj1 (proj2 (unusable_status_message_dropped
      Sample.cfg w "device/AA:BB:CC/status" (Sample.render Sample.rebootingC2)
      true 1000 _))).
    right. exists Sample.rebootingC2. split; [reflexivity|].
    right. intros s [= <-]. repeat split; discriminate.
Defined.

End ConsumerExamples.

(** * Further properties of the two services *)

(** ** The cleanup timer *)

(** X1. The cleanup keeps exactly the entries that are at most
    [PUBLISH_COOLDOWN] old at the clock it reads, each with its timestamp:
    an entry exactly 30000 ms old survives, an older one is deleted, and
    nothing is added or rewritten. *)
Theorem cleanup_keeps_exactly_the_fresh
    (now : Z) (m : gmap string Z) (key : string) (ts : Z) :
  cleanup now m !! key = Some ts
  <-> m !! key = Some ts /\ now - ts <= PUBLISH_COOLDOWN.
Proof.
  rewrite cleanup_lookup.
  destruct (m !! key) as [ts'|]; [|split; [done|by intros [? _]]].
  destruct (Z.gtb_spec (now - ts') PUBLISH_COOLDOWN) as [Hold|Hfresh].
  - split; [done|]. intros [[= ->] Hage]. lia.
  - split; [intros [= ->]; done|]. by intros [[= ->] _].
Qed.

(** X2. Two cleanups in a row, in either order of their clocks, leave what
    one cleanup at the later clock leaves; so running the cleanup again at
    the same clock changes nothing. *)
Theorem cleanup_twice_is_cleanup_at_the_later_clock
    (now1 now2 : Z) (m : gmap string Z) :
  cleanup now2 (cleanup now1 m) = cleanup (Z.max now1 now2) m
  /\ cleanup now1 (cleanup now1 m) = cleanup now1 m.
Proof.
  assert (forall a b, cleanup b (cleanup a m) = cleanup (Z.max a b) m) as Hmax.
  { intros a b. apply map_eq. intros key.
    rewrite !cleanup_lookup.
    destruct (m !! key) as [ts|]; [|done].
    destruct (Z.gtb_spec (a - ts) PUBLISH_COOLDOWN),
             (Z.gtb_spec (b - ts) PUBLISH_COOLDOWN),
             (Z.gtb_spec (Z.max a b - ts) PUBLISH_COOLDOWN); try done; lia. }
  split; [apply Hmax|]. by rewrite Hmax, Z.max_id.
Qed.

(** ** Runs *)

Section Runs.
Context `{Json}.

Lemma run_world_cons cfg ev evs w :
  (run cfg (ev :: evs) w).1 = (run cfg evs (step cfg ev w).1).1.
Proof.
  simpl. destruct (step cfg ev w) as [w1 did]. simpl.
  by destruct (run cfg evs w1) as [w2 log].
Qed.

Lemma run_log_cons cfg ev evs w :
  (run cfg (ev :: evs) w).2
  = (ev, (step cfg ev w).2) :: (run cfg evs (step cfg ev w).1).2.
Proof.
  simpl. destruct (step cfg ev w) as [w1 did]. simpl.
  by destruct (run cfg evs w1) as [w2 log].
Qed.

Lemma pollTrace_cons cfg ev evs w :
  pollTrace cfg (ev :: evs) w
  = match ev, commands w with
    | PollLoop _ _ _, cmd :: _ =>
        (id cmd, (step cfg ev w).2) :: pollTrace cfg evs (step cfg ev w).1
    | _, _ => pollTrace cfg evs (step cfg ev w).1
    end.
Proof. simpl. by destruct (step cfg ev w) as [w1 did]. Qed.

Lemma visitCommand_loop_state cmd storeUp ack now w :
  isPolling (visitCommand cmd storeUp ack now w).1 = isPolling w
  /\ commands (visitCommand cmd storeUp ack now w).1 = commands w
  /\ mqttConnected (visitCommand cmd storeUp ack now w).1 = mqttConnected w.
Proof.
  destruct (recentlyPublished w !! id cmd) as [ts|] eqn:Hc.
  - by rewrite (visitCommand_cached _ _ _ _ _ _ Hc).
  - destruct (visitCommand_cases cmd storeUp ack now w Hc)
      as [[_ ->]|[(mac & message & _ & _ & _ & _ & ->)|(mac & sent & _ & _ & _ & ->)]];
      simpl; try done.
    by destruct (patchItem _ _ _ _).
Qed.

Lemma pollNext_isPolling storeUp ack now w cmd rest :
  commands w = cmd :: rest ->
  isPolling (pollNext storeUp ack now w).1
  = match rest with [] => false | _ => isPolling w end.
Proof.
  intros Hc. unfold pollNext. rewrite Hc.
  destruct (visitCommand_loop_state cmd storeUp ack now w) as (Hp & _ & _).
  destruct (visitCommand cmd storeUp ack now w) as [w1 done].
  simpl in Hp. by destruct rest.
Qed.

Lemma pollNext_mqttConnected storeUp ack now w :
  mqttConnected (pollNext storeUp ack now w).1 = mqttConnected w.
Proof.
  unfold pollNext. destruct (commands w) as [|cmd rest]; [done|].
  destruct (visitCommand_loop_state cmd storeUp ack now w) as (_ & _ & Hm).
  destruct (visitCommand cmd storeUp ack now w) as [w1 done].
  simpl in Hm. by destruct rest.
Qed.

Lemma pollNext_idle storeUp ack now w :
  commands w = [] -> pollNext storeUp ack now w = (w, []).
Proof. intros Hc. unfold pollNext. by rewrite Hc. Qed.

(** Only the poll timer and the loop touch the loop's state. *)
Lemma step_loop_state cfg ev w :
  isPollTimer ev = false -> isPollLoop ev = false ->
  isPolling (step cfg ev w).1 = isPolling w
  /\ commands (step cfg ev w).1 = commands w.
Proof.
  intros Ht Hl. destruct ev; simpl in *; try done.
  - by destruct (onMessage _ _ _ _ _) as [sent [rows|e]].
  - by destruct (hasItem _ _).
Qed.

Lemma length_fetchPending rows : (length (fetchPending rows) <= 10)%nat.
Proof. unfold fetchPending. rewrite length_take. lia. Qed.

Lemma step_singleFlight cfg ev w :
  singleFlight w -> singleFlight (step cfg ev w).1.
Proof.
  intros [Hflag Hlen]. unfold singleFlight.
  destruct (isPollTimer ev) eqn:Ht; [|destruct (isPollLoop ev) eqn:Hl].
  - destruct ev; try discriminate. simpl. unfold pollPendingCommands.
    destruct (negb (directusApi cfg) || negb (mqttConnected w) || isPolling w)
      eqn:Hguard; [done|].
    assert (commands w = []) as Hidle.
    { destruct (commands w) as [|c l] eqn:Hc; [done|].
      assert (isPolling w = true) as Hp by (apply Hflag; done).
      rewrite Hp, orb_true_r in Hguard. discriminate. }
    destruct storeUp; simpl.
    + pose proof (length_fetchPending (items w)) as Hten.
      destruct (fetchPending (items w)) as [|c0 l]; simpl.
      * rewrite Hidle. split; [|simpl; lia]. split; done.
      * split; [|exact Hten]. split; done.
    + rewrite Hidle. split; [|simpl; lia]. split; done.
  - destruct ev; try discriminate. simpl.
    destruct (commands w) as [|cmd rest] eqn:Hc.
    + rewrite (pollNext_idle _ _ _ _ Hc). simpl. rewrite Hc. done.
    + rewrite (pollNext_isPolling _ _ _ _ _ _ Hc),
              (pollNext_commands _ _ _ _ _ _ Hc).
      split; [|simpl in Hlen; lia].
      destruct rest; [split; done|].
      split; [done|]. intros _. by apply Hflag.
  - destruct (step_loop_state cfg ev w Ht Hl) as [-> ->]. done.
Qed.

Lemma run_singleFlight cfg evs : forall w,
  singleFlight w -> singleFlight (run cfg evs w).1.
Proof.
  induction evs as [|ev evs IH]; intros w Hinv; [done|].
  rewrite run_world_cons. by apply IH, step_singleFlight.
Qed.

(** X3. Cycles never overlap. From a state where [isPolling] is up exactly
    while the loop has commands left (the state at start-up is one), every
    run keeps it so and keeps the loop within ten commands; and as long as
    commands are left, a tick of the poll timer starts nothing, asks the
    store nothing and leaves the state as it is. *)
Theorem poll_cycles_never_overlap
    (cfg : Config) (evs : list Event) (w : World)
    (Hstart : singleFlight w) :
  singleFlight (run cfg evs w).1
  /\ (commands (run cfg evs w).1 <> [] ->
      forall storeUp,
        step cfg (PollTimer storeUp) (run cfg evs w).1
        = ((run cfg evs w).1, [])).
Proof.
  pose proof (run_singleFlight cfg evs w Hstart) as Hinv.
  split; [exact Hinv|]. intros Hleft storeUp. simpl.
  unfold pollPendingCommands.
  destruct Hinv as [Hflag _]. apply Hflag in Hleft.
  by rewrite Hleft, orb_true_r.
Qed.

Lemma run_idle_loop cfg evs : forall w,
  forallb (fun ev => negb (isPollTimer ev)) evs = true ->
  commands w = [] ->
  commands (run cfg evs w).1 = []
  /\ isPolling (run cfg evs w).1 = isPolling w
  /\ pollTrace cfg evs w = [].
Proof.
  induction evs as [|ev evs IH]; intros w Hno Hidle; [done|].
  simpl in Hno. apply andb_prop in Hno as [Hev Hno].
  apply negb_true_iff in Hev.
  rewrite run_world_cons, pollTrace_cons, Hidle.
  assert (commands (step cfg ev w).1 = []
          /\ isPolling (step cfg ev w).1 = isPolling w) as [Hc Hp].
  { destruct (isPollLoop ev) eqn:Hl.
    - destruct ev; try discriminate. simpl.
      by rewrite (pollNext_idle _ _ _ _ Hidle).
    - destruct (step_loop_state cfg ev w Hev Hl) as [-> ->]. done. }
  destruct (IH _ Hno Hc) as (-> & -> & ->).
  rewrite Hp. by destruct ev.
Qed.

(** X4. One cycle visits the commands it fetched once each, in the order
    of the answer. Through any events among which the poll timer does not
    fire, the turns of the loop visit the first commands of the list, one
    per turn, the others stay for later turns, and once there have been as
    many turns as commands the flag is down again, whatever became of the
    single commands. *)
Theorem loop_visits_each_fetched_command_once
    (cfg : Config) (evs : list Event) (w : World)
    (Hquiet : forallb (fun ev => negb (isPollTimer ev)) evs = true) :
  map fst (pollTrace cfg evs w)
    = take (length (List.filter isPollLoop evs)) (map id (commands w))
  /\ commands (run cfg evs w).1
     = drop (length (List.filter isPollLoop evs)) (commands w)
  /\ (commands w <> [] ->
      (length (commands w) <= length (List.filter isPollLoop evs))%nat ->
      isPolling (run cfg evs w).1 = false).
Proof.
  revert w Hquiet. induction evs as [|ev evs IH]; intros w Hquiet.
  { simpl. repeat split; try done. intros Hne Hlen.
    destruct (commands w); [done|simpl in Hlen; lia]. }
  simpl in Hquiet. apply andb_prop in Hquiet as [Hev Hquiet].
  apply negb_true_iff in Hev.
  rewrite run_world_cons, pollTrace_cons.
  destruct (isPollLoop ev) eqn:Hl.
  - destruct ev; try discriminate. simpl List.filter. simpl length.
    destruct (commands w) as [|cmd rest] eqn:Hc.
    + change (step cfg (PollLoop storeUp ack now) w)
        with (pollNext storeUp ack now w).
      rewrite (pollNext_idle _ _ _ _ Hc). cbn [fst].
      destruct (run_idle_loop cfg evs w Hquiet Hc) as (-> & _ & ->).
      repeat split; done.
    + destruct (IH (step cfg (PollLoop storeUp ack now) w).1 Hquiet)
        as (Htrace & Hleft & Hflag).
      simpl in Htrace, Hleft, Hflag |- *.
      rewrite (pollNext_commands _ _ _ _ _ _ Hc) in Htrace, Hleft, Hflag.
      rewrite Htrace, Hleft. repeat split; try done.
      intros _ Hlen.
      destruct rest as [|c' rest'].
      * pose proof (pollNext_isPolling storeUp ack now w cmd [] Hc) as Hdown.
        pose proof (pollNext_commands storeUp ack now w cmd [] Hc) as Hnone.
        destruct (run_idle_loop cfg evs _ Hquiet Hnone) as (_ & -> & _).
        exact Hdown.
      * apply Hflag; [done|]. simpl in *. lia.
  - assert (List.filter isPollLoop (ev :: evs) = List.filter isPollLoop evs)
      as -> by (simpl; by rewrite Hl).
    destruct (step_loop_state cfg ev w Hev Hl) as [Hp Hc].
    destruct (IH (step cfg ev w).1 Hquiet) as (Htrace & Hleft & Hflag).
    rewrite Hc in Htrace, Hleft, Hflag.
    split; [|split; [done|done]].
    rewrite <- Htrace. by destruct ev.
Qed.

End Runs.

(** ** What a callback can send, and what it can do to the table *)

Section Shapes.
Context `{Json}.

Lemma publishRoute_shape cfg connected authorization body ack now :
  exists sent reply,
    publishRoute cfg connected authorization body ack now
    = (sent ++ [HttpReply reply])%list
    /\ (sent = []
        \/ connected = true
           /\ exists message,
                sent = [MqttPublish (lookupField "topic" body) message]).
Proof.
  unfold publishRoute, publishHandler.
  destruct (authMiddleware _ _); [|exists []; eauto].
  destruct (truthy (lookupField "topic" body)); simpl; [|exists []; eauto].
  destruct (truthy (lookupField "payload" body)); simpl; [|exists []; eauto].
  destruct connected.
  - destruct (publishToMqtt_connected ack (lookupField "topic" body)
                (lookupField "payload" body)) as [message ->].
    destruct ack; eexists _, _; (split; [reflexivity|]); right; eauto.
  - rewrite publishToMqtt_disconnected. exists []. eauto.
Qed.

Lemma onMessage_effects topic message storeUp now rows :
  (onMessage topic message storeUp now rows).1 = []
  \/ exists key b, (onMessage topic message storeUp now rows).1
                   = [DirectusPatch key b].
Proof.
  destruct (onMessage_shape topic message) as [Hdrop|(key & s & r & e & Hp)].
  - left. by rewrite Hdrop.
  - right. rewrite Hp. eauto.
Qed.

Lemma step_StatusMessage_effects cfg topic message storeUp now w :
  (step cfg (StatusMessage topic message storeUp now) w).2
  = (onMessage topic message storeUp now (items w)).1.
Proof.
  simpl. by destruct (onMessage _ _ _ _ _) as [sent [rows|e]].
Qed.

(** The broker client is only ever called while [mqttConnected] is up. *)
Lemma step_publishes_only_connected cfg ev w e :
  In e (step cfg ev w).2 -> isMqttPublish e = true -> mqttConnected w = true.
Proof.
  intros Hin Hpub. destruct ev; try (simpl in Hin; done).
  - simpl in Hin. destruct (commands w) as [|cmd rest] eqn:Hc.
    { by rewrite (pollNext_idle _ _ _ _ Hc) in Hin. }
    rewrite (pollNext_effects _ _ _ _ _ _ Hc) in Hin.
    destruct (recentlyPublished w !! id cmd) as [ts|] eqn:Hcache.
    { by rewrite (visitCommand_cached _ _ _ _ _ _ Hcache) in Hin. }
    destruct (visitCommand_cases cmd storeUp ack now w Hcache)
      as [[_ Hv]|[(m & msg & _ & _ & Hconn & _)|(m & s & _ & _ & Hwhy & Hv)]];
      [|done|].
    + rewrite Hv in Hin. simpl in Hin. destruct Hin as [<-|[]]. discriminate.
    + rewrite Hv in Hin. simpl in Hin.
      destruct Hwhy as [[_ ->]|(Hconn & _)]; done.
  - simpl in Hin.
    destruct (publishRoute_shape cfg (mqttConnected w) authorization body ack now)
      as (sent & reply & Heq & [->|[Hconn _]]); [|done].
    rewrite Heq in Hin. simpl in Hin. destruct Hin as [<-|[]]. discriminate.
  - rewrite step_StatusMessage_effects in Hin.
    destruct (onMessage_effects topic message storeUp now (items w))
      as [Hnone|(key & b & Hone)].
    + by rewrite Hnone in Hin.
    + rewrite Hone in Hin. destruct Hin as [<-|[]]. discriminate.
Qed.

Lemma step_mqttConnected cfg ev w :
  mqttConnected (step cfg ev w).1
  = match ev with
    | OnConnect => true
    | OnClose => false
    | _ => mqttConnected w
    end.
Proof.
  destruct ev; simpl; try done.
  - unfold pollPendingCommands.
    destruct (negb (directusApi cfg) || negb (mqttConnected w) || isPolling w);
      [done|].
    destruct storeUp; [|done]. by destruct (fetchPending _).
  - apply pollNext_mqttConnected.
  - by destruct (onMessage _ _ _ _ _) as [sent [rows|e]].
  - by destruct (hasItem _ _).
Qed.

Lemma sameCommand_refl c : sameCommand c c.
Proof. repeat split; done. Qed.

Lemma sameCommand_trans a b c :
  sameCommand a b -> sameCommand b c -> sameCommand a c.
Proof.
  intros (? & ? & ? & ? & ? & ? & ?) (? & ? & ? & ? & ? & ? & ?).
  repeat split; try congruence. auto.
Qed.

Lemma sameCommand_patched (b : PatchBody) (c : Command) :
  (forall s, patch_status b = Some s -> s <> "pending") ->
  sameCommand c (applyPatch b c).
Proof.
  intros Hs. repeat split; try done. simpl.
  destruct (patch_status b) as [s|]; simpl; [|done]. intros _. by apply Hs.
Qed.

Lemma patchItem_sameCommand storeUp key b rows rows' :
  (forall s, patch_status b = Some s -> s <> "pending") ->
  patchItem storeUp key b rows = Some rows' ->
  Forall2 sameCommand rows rows'.
Proof.
  intros Hs Hp. apply patchItem_Some in Hp as (_ & _ & ->).
  induction rows as [|c rows IH]; simpl; constructor; [|exact IH].
  destruct (String.eqb (id c) key);
    [by apply sameCommand_patched|apply sameCommand_refl].
Qed.

Lemma Forall2_sameCommand_refl rows : Forall2 sameCommand rows rows.
Proof. induction rows; constructor; [apply sameCommand_refl|done]. Qed.

(** One callback keeps every row, in place, as the same command, and can
    only add rows at the end. *)
Lemma step_table cfg ev w :
  exists rows' added,
    items (step cfg ev w).1 = (rows' ++ added)%list
    /\ Forall2 sameCommand (items w) rows'.
Proof.
  assert (items (step cfg ev w).1 = items w ->
          exists rows' added,
            items (step cfg ev w).1 = (rows' ++ added)%list
            /\ Forall2 sameCommand (items w) rows') as Hsame.
  { intros ->. exists (items w), []. rewrite app_nil_r.
    split; [done|apply Forall2_sameCommand_refl]. }
  assert (forall storeUp key b,
            (forall s, patch_status b = Some s -> s <> "pending") ->
            patchItem storeUp key b (items w) = Some (items (step cfg ev w).1) ->
            exists rows' added,
              items (step cfg ev w).1 = (rows' ++ added)%list
              /\ Forall2 sameCommand (items w) rows') as Hpatch.
  { intros storeUp key b Hs Hp. exists (items (step cfg ev w).1), [].
    rewrite app_nil_r. split; [done|]. by eapply patchItem_sameCommand. }
  destruct ev; try (apply Hsame; reflexivity).
  - apply Hsame. simpl. apply pollPendingCommands_items.
  - destruct (commands w) as [|cmd rest] eqn:Hc.
    { apply Hsame. simpl. by rewrite (pollNext_idle _ _ _ _ Hc). }
    destruct (visitCommand_items cmd storeUp ack now w) as [Heq|(_ & _ & Hp)].
    + apply Hsame. simpl. by rewrite (pollNext_items _ _ _ _ _ _ Hc).
    + apply (Hpatch storeUp (id cmd) failedMark).
      * intros s [= <-]. discriminate.
      * simpl. by rewrite (pollNext_items _ _ _ _ _ _ Hc).
  - destruct (onMessage_cases topic message storeUp now (items w))
      as [[sent Hdrop]|(key & b & rows' & s & Hmsg & Hp & Hs & Hvalid & _)].
    + apply Hsame. rewrite step_StatusMessage_items. by rewrite Hdrop.
    + apply (Hpatch storeUp key b).
      * intros s' Hs'. rewrite Hs in Hs'. injection Hs' as <-.
        destruct Hvalid as [-> | [-> | ->]]; discriminate.
      * rewrite step_StatusMessage_items. by rewrite Hmsg.
  - simpl. destruct (hasItem (id c) (items w)).
    + exists (items w), []. rewrite app_nil_r.
      split; [done|apply Forall2_sameCommand_refl].
    + exists (items w), [c]. split; [done|apply Forall2_sameCommand_refl].
Qed.

Lemma Forall2_sameCommand_trans l1 l2 l3 :
  Forall2 sameCommand l1 l2 -> Forall2 sameCommand l2 l3 ->
  Forall2 sameCommand l1 l3.
Proof.
  intros H12. revert l3. induction H12 as [|a b l1 l2 Hab _ IH]; intros l3 H23.
  - inversion H23. constructor.
  - inversion H23 as [|b' c l2' l3' Hbc Hrest]; subst.
    constructor; [by eapply sameCommand_trans|by apply IH].
Qed.

Lemma run_table cfg evs : forall w,
  exists rows' added,
    items (run cfg evs w).1 = (rows' ++ added)%list
    /\ Forall2 sameCommand (items w) rows'.
Proof.
  induction evs as [|ev evs IH]; intros w.
  { exists (items w), []. rewrite app_nil_r.
    split; [done|apply Forall2_sameCommand_refl]. }
  rewrite run_world_cons.
  destruct (step_table cfg ev w) as (r1 & a1 & Hstep & H1).
  destruct (IH (step cfg ev w).1) as (r2 & a2 & Hrun & H2).
  rewrite Hstep in H2.
  apply Forall2_app_inv_l in H2 as (r2a & r2b & Ha & Hb & ->).
  exists r2a, (r2b ++ a2)%list. split.
  - by rewrite Hrun, <- app_assoc.
  - by eapply Forall2_sameCommand_trans.
Qed.

Lemma hasItem_sameCommand key rows rows' added :
  Forall2 sameCommand rows rows' ->
  hasItem key rows = true -> hasItem key (rows' ++ added) = true.
Proof.
  intros Hsame Hhas. unfold hasItem in *. rewrite existsb_app.
  apply orb_true_intro. left.
  induction Hsame as [|c c' rows rows' Hc _ IH]; [done|].
  simpl in *. destruct Hc as (-> & _).
  destruct (String.eqb (id c) key); [done|]. by apply IH.
Qed.

Lemma step_hasItem cfg ev w key :
  hasItem key (items w) = true -> hasItem key (items (step cfg ev w).1) = true.
Proof.
  intros Hhas. destruct (step_table cfg ev w) as (rows' & added & -> & Hsame).
  by eapply hasItem_sameCommand.
Qed.

End Shapes.

(** ** Connection state *)

Section Connection.
Context `{Json}.

Lemma run_mqttConnected cfg evs : forall w,
  mqttConnected (run cfg evs w).1 = lastConnection evs (mqttConnected w).
Proof.
  unfold lastConnection.
  induction evs as [|ev evs IH]; intros w; [done|].
  rewrite run_world_cons, IH, step_mqttConnected. simpl. by destruct ev.
Qed.

(** X5. The liveness that [GET /health] reports is that of the last
    connection callback: after any run, [status] is "ok" and [mqtt] is
    "connected" exactly when the last of the connect and close callbacks in
    the run was a connect (or, with none in the run, when the bridge was
    connected before). No other callback moves it: not a failed publish,
    not a rejected request, not a cycle of the reconciler. *)
Theorem health_reports_the_last_connection_event
    (cfg : Config) (evs : list Event) (w : World) (now : Z) :
  let h := health cfg (run cfg evs w).1 now in
  (health_status h = "ok" <-> lastConnection evs (mqttConnected w) = true)
  /\ (health_status h = "degraded"
      <-> lastConnection evs (mqttConnected w) = false)
  /\ (health_mqtt h = "connected" <-> health_status h = "ok")
  /\ (health_mqtt h = "disconnected" <-> health_status h = "degraded")
  /\ health_timestamp h = now.
Proof.
  simpl. rewrite run_mqttConnected.
  destruct (lastConnection evs (mqttConnected w)); repeat split; done.
Qed.

(** X6. What [GET /health] says is what a caller of the trigger gets.
    While it reports "ok", every request that passes the middleware with a
    truthy topic and payload is handed to the broker client, and answered
    with success when the broker acknowledges. While it reports
    "degraded", every such request is answered 503 and nothing is handed
    over. While [polling] is "disabled", a tick of the poll timer does
    nothing; while it is "active" and [status] is "ok" and no cycle is
    running, a tick whose query succeeds starts the cycle over the pending
    batch. *)
Theorem health_agrees_with_dispatch
    (cfg : Config) (w : World) (now : Z) :
  (health_status (health cfg w now) = "ok" ->
   forall authorization body ack now',
     authMiddleware (BRIDGE_SECRET cfg) authorization = Next ->
     truthy (lookupField "topic" body) = true ->
     truthy (lookupField "payload" body) = true ->
     exists message reply,
       step cfg (HttpPublish authorization body ack now') w
       = (w, [MqttPublish (lookupField "topic" body) message; HttpReply reply])
       /\ (ack = None -> reply = Published (lookupField "topic" body) now'))
  /\ (health_status (health cfg w now) = "degraded" ->
      forall authorization body ack now',
        authMiddleware (BRIDGE_SECRET cfg) authorization = Next ->
        truthy (lookupField "topic" body) = true ->
        truthy (lookupField "payload" body) = true ->
        step cfg (HttpPublish authorization body ack now') w
        = (w, [HttpReply (Failed 503 "MQTT broker not connected")]))
  /\ (health_polling (health cfg w now) = "disabled" ->
      forall storeUp, step cfg (PollTimer storeUp) w = (w, []))
  /\ (health_polling (health cfg w now) = "active" ->
      health_status (health cfg w now) = "ok" ->
      isPolling w = false ->
      fetchPending (items w) <> [] ->
      commands (step cfg (PollTimer true) w).1 = fetchPending (items w)
      /\ isPolling (step cfg (PollTimer true) w).1 = true).
Proof.
  assert (health_status (health cfg w now) = "ok" -> mqttConnected w = true)
    as Hok by (simpl; destruct (mqttConnected w); done).
  assert (health_status (health cfg w now) = "degraded" ->
          mqttConnected w = false)
    as Hdeg by (simpl; destruct (mqttConnected w); done).
  assert (health_polling (health cfg w now) = "disabled" ->
          directusApi cfg = false)
    as Hoff by (simpl; destruct (directusApi cfg); done).
  assert (health_polling (health cfg w now) = "active" ->
          directusApi cfg = true)
    as Hon by (simpl; destruct (directusApi cfg); done).
  split; [|split; [|split]].
  - intros Hs authorization body ack now' Hauth Ht Hp.
    cbn [step]. unfold publishRoute, publishHandler.
    rewrite Hauth, Ht, Hp, (Hok Hs). cbn [negb].
    destruct (publishToMqtt_connected ack (lookupField "topic" body)
                (lookupField "payload" body)) as [message ->].
    destruct ack as [err|]; eexists _, _; (split; [reflexivity|]);
      [discriminate|done].
  - intros Hs authorization body ack now' Hauth Ht Hp.
    cbn [step]. unfold publishRoute, publishHandler.
    by rewrite Hauth, Ht, Hp, (Hdeg Hs).
  - intros Hp storeUp. cbn [step]. unfold pollPendingCommands.
    by rewrite (Hoff Hp).
  - intros Hp Hs Hidle Hsome. cbn [step fst]. unfold pollPendingCommands.
    rewrite (Hon Hp), (Hok Hs), Hidle. cbn [negb orb].
    cbn [items set_isPolling].
    by destruct (fetchPending (items w)).
Qed.

(** X7. While the bridge is disconnected and until a connect callback
    runs, nothing at all is handed to the broker client, by the trigger
    route or by the polling loop, whatever else happens. *)
Theorem nothing_reaches_the_broker_while_disconnected
    (cfg : Config) (evs : list Event) (w : World)
    (Hdown : mqttConnected w = false)
    (Hnone : forallb (fun ev => negb (isOnConnect ev)) evs = true) :
  mqttConnected (run cfg evs w).1 = false
  /\ forall ev done e,
       In (ev, done) (run cfg evs w).2 -> In e done ->
       isMqttPublish e = false.
Proof.
  revert w Hdown Hnone. induction evs as [|ev evs IH]; intros w Hdown Hnone.
  { split; [done|]. intros ev done e []. }
  simpl in Hnone. apply andb_prop in Hnone as [Hev Hnone].
  rewrite run_world_cons, run_log_cons.
  assert (mqttConnected (step cfg ev w).1 = false) as Hdown1.
  { rewrite step_mqttConnected. by destruct ev. }
  destruct (IH _ Hdown1 Hnone) as [Hfinal Hlog].
  split; [exact Hfinal|].
  intros ev' done e [[= <- <-]|Hin] He; [|by eapply Hlog].
  destruct (isMqttPublish e) eqn:Hpub; [|done].
  pose proof (step_publishes_only_connected cfg ev w e He Hpub). congruence.
Qed.

End Connection.

(** ** The table and the dedup map along a run *)

Section Along.
Context `{Json}.

(** X8. The two services never lose or reopen a command. After any run,
    every row of the table is still at its place, with the same key,
    type, parameters, device and creation time, and a row that was
    "processing", "completed" or "failed" (anything but "pending") is not
    "pending" afterwards; rows are only ever added at the end. *)
Theorem stored_commands_stay_and_never_reopen
    (cfg : Config) (evs : list Event) (w : World) :
  (length (items w) <= length (items (run cfg evs w).1))%nat
  /\ forall (i : nat) (c : Command),
       items w !! i = Some c ->
       exists c', items (run cfg evs w).1 !! i = Some c' /\ sameCommand c c'.
Proof.
  destruct (run_table cfg evs w) as (rows' & added & -> & Hsame).
  split.
  - rewrite length_app, <- (Forall2_length _ _ _ Hsame). lia.
  - intros i c Hi.
    destruct (Forall2_lookup_l _ _ _ _ _ Hsame Hi) as (c' & Hi' & Hc).
    exists c'. split; [|done]. by apply lookup_app_l_Some.
Qed.

(** Where an entry of the dedup map comes from: it was there before, or
    this very callback is a turn of the loop that published the command
    with a clean acknowledgement and stamped it with its clock. *)
Lemma step_entry_origin cfg ev w key ts :
  recentlyPublished (step cfg ev w).1 !! key = Some ts ->
  recentlyPublished w !! key = Some ts
  \/ exists cmd rest storeUp mac message,
       ev = PollLoop storeUp None ts
       /\ commands w = cmd :: rest /\ id cmd = key
       /\ deviceMacOf cmd = Some mac
       /\ mqttConnected w = true
       /\ (step cfg ev w).2 = [MqttPublish (JStr (commandTopic mac)) message].
Proof.
  intros Hk. destruct ev; simpl in Hk; try (by left).
  - left. rewrite cleanup_lookup in Hk. destruct (recentlyPublished w !! key) as [t|]; [|done]. by destruct (now - t >? PUBLISH_COOLDOWN).
  - left. by rewrite pollPendingCommands_recentlyPublished in Hk.
  - destruct (commands w) as [|cmd rest] eqn:Hc.
    { left. by rewrite (pollNext_idle _ _ _ _ Hc) in Hk. }
    rewrite (pollNext_recentlyPublished _ _ _ _ _ _ Hc) in Hk.
    destruct (recentlyPublished w !! id cmd) as [ts'|] eqn:Hcache.
    { left. by rewrite (visitCommand_cached _ _ _ _ _ _ Hcache) in Hk. }
    destruct (visitCommand_cases cmd storeUp ack now w Hcache)
      as [[_ Hv]|[(m & msg & Hm & _ & Hconn & -> & Hv)|(m & s & _ & _ & _ & Hv)]].
    + left. rewrite Hv in Hk. simpl in Hk. by destruct (patchItem _ _ _ _).
    + rewrite Hv in Hk. simpl in Hk.
      destruct (decide (id cmd = key)) as [Heq|Hne].
      * rewrite Heq, lookup_insert_eq in Hk. injection Hk as ->.
        right. exists cmd, rest, storeUp, m, msg. repeat split; try done.
        simpl. by rewrite (pollNext_effects _ _ _ _ _ _ Hc), Hv.
      * left. by rewrite lookup_insert_ne in Hk.
    + left. by rewrite Hv in Hk.
  - left. by destruct (onMessage _ _ _ _ _) as [sent [rows|e]].
  - left. by destruct (hasItem _ _).
Qed.

Lemma step_knownToStore cfg ev w :
  knownToStore w -> knownToStore (step cfg ev w).1.
Proof.
  intros [Hmap Hloop]. split.
  - intros key ts Hk. apply step_hasItem.
    destruct (step_entry_origin cfg ev w key ts Hk)
      as [Hold|(cmd & rest & _ & _ & _ & _ & Hc & <- & _)].
    + by eapply Hmap.
    + apply Hloop. rewrite Hc. by left.
  - intros c Hin. apply step_hasItem.
    destruct (isPollTimer ev) eqn:Ht; [|destruct (isPollLoop ev) eqn:Hl].
    + destruct ev; try discriminate. simpl in Hin.
      unfold pollPendingCommands in Hin.
      destruct (negb (directusApi cfg) || negb (mqttConnected w) || isPolling w);
        [by apply Hloop|].
      destruct storeUp; [|by apply Hloop]. simpl in Hin.
      destruct (fetchPending (items w)) as [|c0 l] eqn:Hf; [by apply Hloop|].
      change (In c (c0 :: l)) in Hin. rewrite <- Hf in Hin.
      apply fetchPending_In in Hin as [Hin _].
      apply hasItem_In. eauto.
    + destruct ev; try discriminate. simpl in Hin.
      destruct (commands w) as [|cmd rest] eqn:Hc.
      { rewrite (pollNext_idle _ _ _ _ Hc) in Hin. simpl in Hin.
        rewrite Hc in Hin. done. }
      rewrite (pollNext_commands _ _ _ _ _ _ Hc) in Hin.
      apply Hloop. by right.
    + destruct (step_loop_state cfg ev w Ht Hl) as [_ Hc].
      rewrite Hc in Hin. by apply Hloop.
Qed.

(** X9. The bridge only ever remembers commands of the store. From a
    state in which every identifier in the dedup map and in the running
    loop is the key of a stored row (as at start-up, when both are empty),
    every run ends in such a state: the map never holds an identifier the
    store does not hold. *)
Theorem dedup_map_holds_only_stored_commands
    (cfg : Config) (evs : list Event) (w : World)
    (Hstart : knownToStore w) :
  knownToStore (run cfg evs w).1.
Proof.
  revert w Hstart. induction evs as [|ev evs IH]; intros w Hstart; [done|].
  rewrite run_world_cons. by apply IH, step_knownToStore.
Qed.

(** X10. Every entry of the dedup map is the record of a publish. If the
    map has an entry after a run that it did not have before, then some
    turn of the polling loop in that run handed exactly that command to
    the broker client and got a clean acknowledgement; the trigger route,
    the status consumer and failed publishes never write the map. *)
Theorem every_new_entry_records_a_publish
    (cfg : Config) (evs : list Event) (w : World) (key : string) (ts : Z)
    (Hnow : recentlyPublished (run cfg evs w).1 !! key = Some ts)
    (Hbefore : recentlyPublished w !! key <> Some ts) :
  exists storeUp topic message,
    In (PollLoop storeUp None ts, [MqttPublish topic message]) (run cfg evs w).2
    /\ In (key, [MqttPublish topic message]) (pollTrace cfg evs w).
Proof.
  revert w Hnow Hbefore.
  induction evs as [|ev evs IH]; intros w Hnow Hbefore; [done|].
  rewrite run_world_cons in Hnow. rewrite run_log_cons, pollTrace_cons.
  destruct (decide (recentlyPublished (step cfg ev w).1 !! key = Some ts))
    as [Hstep|Hstep].
  - destruct (step_entry_origin cfg ev w key ts Hstep)
      as [Hold|(cmd & rest & su & mac & msg & -> & Hc & <- & _ & _ & Heff)];
      [done|].
    exists su, (JStr (commandTopic mac)), msg. rewrite Hc, Heff.
    split; by left.
  - destruct (IH _ Hnow Hstep) as (su & topic & msg & Hlog & Htrace).
    exists su, topic, msg. split; [by right|].
    destruct ev; try done. destruct (commands w); [done|by right].
Qed.

End Along.

(** ** Without a store token *)

Section DispatchOnly.
Context `{Json}.

Lemma step_without_token cfg ev w :
  directusApi cfg = false -> commands w = [] ->
  commands (step cfg ev w).1 = []
  /\ isPolling (step cfg ev w).1 = isPolling w
  /\ (forall e, In e (step cfg ev w).2 -> ofBridge ev = true ->
        isDirectusPatch e = false
        /\ (isMqttPublish e = true ->
            exists authorization body ack now,
              ev = HttpPublish authorization body ack now)).
Proof.
  intros Hoff Hidle.
  destruct ev; simpl; try (by repeat split).
  - unfold pollPendingCommands. rewrite Hoff. simpl. by repeat split.
  - rewrite (pollNext_idle _ _ _ _ Hidle). by repeat split.
  - split; [done|]. split; [done|]. intros e Hin _.
    destruct (publishRoute_shape cfg (mqttConnected w) authorization body ack now)
      as (sent & reply & Heq & Hsent).
    rewrite Heq in Hin. split; [|eauto].
    destruct Hsent as [->|(_ & msg & ->)]; simpl in Hin.
    + by destruct Hin as [<-|[]].
    + by destruct Hin as [<-|[<-|[]]].
  - destruct (onMessage _ _ _ _ _) as [sent [rows|e]]; simpl;
      (split; [done|]); (split; [done|]); intros; discriminate.
  - destruct (hasItem _ _); by repeat split.
Qed.

(** X11. Without [DIRECTUS_TOKEN] the bridge only relays. In every run
    from a state with no loop under way, no turn of the polling loop ever
    visits a command, the flag [isPolling] is never raised, the dedup map
    gets no new entry, the bridge sends the store no PATCH, and whatever
    is handed to the broker client comes from the trigger route. *)
Theorem without_token_the_bridge_only_relays
    (cfg : Config) (evs : list Event) (w : World)
    (Hoff : directusApi cfg = false)
    (Hidle : commands w = []) :
  pollTrace cfg evs w = []
  /\ commands (run cfg evs w).1 = []
  /\ isPolling (run cfg evs w).1 = isPolling w
  /\ (forall key ts,
        recentlyPublished (run cfg evs w).1 !! key = Some ts ->
        recentlyPublished w !! key = Some ts)
  /\ (forall ev done e,
        In (ev, done) (run cfg evs w).2 -> In e done -> ofBridge ev = true ->
        isDirectusPatch e = false
        /\ (isMqttPublish e = true ->
            exists authorization body ack now,
              ev = HttpPublish authorization body ack now)).
Proof.
  revert w Hidle. induction evs as [|ev evs IH]; intros w Hidle.
  { repeat split; done. }
  rewrite run_world_cons, run_log_cons, pollTrace_cons, Hidle.
  destruct (step_without_token cfg ev w Hoff Hidle) as (Hc & Hp & Heff).
  destruct (IH _ Hc) as (Htrace & Hcs & Hflag & Hmap & Hlog).
  rewrite Htrace, Hcs, Hflag, Hp.
  split; [by destruct ev|]. split; [done|]. split; [done|]. split.
  - intros key ts Hk. apply Hmap in Hk.
    destruct (step_entry_origin cfg ev w key ts Hk)
      as [Hold|(cmd & rest & _ & _ & _ & _ & Hcmd & _)]; [done|congruence].
  - intros ev' done e [[= <- <-]|Hin] He Hb; [by apply Heff|by eapply Hlog].
Qed.

End DispatchOnly.

(** ** The trigger route and the turn of the loop, case by case *)




Lemma append_cancel_r (a b t : string) : a ++ t = b ++ t -> a = b.
Proof.
  intros Heq.
  assert (String.length a = String.length b) as Hlen.
  { apply (f_equal String.length) in Heq. rewrite !append_length in Heq. lia. }
  by destruct (append_same_length _ _ _ _ Heq Hlen).
Qed.

(** Split a conjunction into its parts, leaving each equivalence whole. *)
Ltac conjs := repeat match goal with |- _ /\ _ => split end.

Section CaseByCase.
Context `{Json}.


Lemma visitCommand_effects cmd storeUp ack now w :
  (visitCommand cmd storeUp ack now w).2
  = match recentlyPublished w !! id cmd with
    | Some _ => []
    | None =>
        match deviceMacOf cmd with
        | None | Some "" => [DirectusPatch (id cmd) failedMark]
        | Some mac =>
            if mqttConnected w
            then [MqttPublish (JStr (commandTopic mac))
                    (JSON_stringify (commandPayload cmd))]
            else []
        end
    end.
Proof.
  unfold visitCommand.
  destruct (recentlyPublished w !! id cmd); [done|].
  destruct (deviceMacOf cmd) as [[|c mac]|]; try done.
  unfold publishToMqtt. destruct (mqttConnected w); [|done].
  by destruct ack.
Qed.

(** X13. What one turn of the polling loop does to a command, and when.
    It sends at most one request. It calls the broker client exactly when
    the command has no entry in the dedup map, its device has a non-empty
    address and the bridge is connected; the call goes to
    [device/<address>/commands] with the serialized payload of that
    command. It sends the store a PATCH exactly when the command has no
    entry and its device has no address, connected or not, and the PATCH
    is the failed mark of that command. It never answers a request. *)
Theorem one_turn_sends_at_most_one_request
    (cfg : Config) (w : World) (cmd : Command) (rest : list Command)
    (storeUp : bool) (ack : option string) (now : Z)
    (Hvisit : commands w = cmd :: rest) :
  let done := (step cfg (PollLoop storeUp ack now) w).2 in
  (length done <= 1)%nat
  /\ ((exists e, In e done /\ isMqttPublish e = true)
      <-> recentlyPublished w !! id cmd = None
          /\ (exists mac, deviceMacOf cmd = Some mac /\ mac <> "")
          /\ mqttConnected w = true)
  /\ (forall e, In e done -> isMqttPublish e = true ->
        exists mac, deviceMacOf cmd = Some mac
          /\ e = MqttPublish (JStr (commandTopic mac))
                   (JSON_stringify (commandPayload cmd)))
  /\ ((exists e, In e done /\ isDirectusPatch e = true)
      <-> recentlyPublished w !! id cmd = None
          /\ (deviceMacOf cmd = None \/ deviceMacOf cmd = Some ""))
  /\ (forall e, In e done -> isDirectusPatch e = true ->
        e = DirectusPatch (id cmd) failedMark)
  /\ (forall e, In e done -> isMqttPublish e = true \/ isDirectusPatch e = true).
Proof.
  cbn [step]. rewrite (pollNext_effects _ _ _ _ _ _ Hvisit), visitCommand_effects.
  destruct (recentlyPublished w !! id cmd) as [ts|] eqn:Hcache;
    [|destruct (deviceMacOf cmd) as [[|c mac]|] eqn:Hmac;
      [| destruct (mqttConnected w) eqn:Hconn |]];
    simpl; conjs; try lia; try (by intros e []);
    try (by intros e [<-|[]]; eauto).
  - split; [by intros (e & [] & _)|by intros [? _]].
  - split; [by intros (e & [] & _)|by intros [? _]].
  - split; [by intros (e & [<-|[]] & ?)|by intros (_ & (m & [= <-] & ?) & _)].
  - split; [intros _; eauto|intros _; eauto].
  - split; [intros _; eauto|intros _; eauto].
  - split; [by intros (e & [<-|[]] & ?)|by intros (_ & [?|?])].
  - split; [by intros (e & [] & _)|by intros (_ & _ & ?)].
  - split; [by intros (e & [] & _)|by intros (_ & [?|?])].
  - split; [by intros (e & [<-|[]] & ?)|by intros (_ & (m & ? & _) & _)].
  - split; [intros _; eauto|intros _; eauto].
Qed.

(** X14. Commands for different device addresses never share a topic: the
    topic of a command determines the address it was built from. *)
Theorem command_topics_do_not_collide (mac1 mac2 : string) :
  commandTopic mac1 = commandTopic mac2 <-> mac1 = mac2.
Proof.
  split; [|by intros ->]. unfold commandTopic. intros Heq.
  apply String.app_inj in Heq. by apply append_cancel_r in Heq.
Qed.

End CaseByCase.

(** ** The status consumer, report by report *)

Section Reports.
Context `{Json}.

Lemma onMessage_valid topic message storeUp now rows fields key s :
  JSON_parse message = Some (JObj fields) ->
  truthy (lookupField "command_id" fields) = true ->
  toStr (lookupField "command_id" fields) = Some key ->
  lookupField "status" fields = JStr s ->
  s = "processing" \/ s = "completed" \/ s = "failed" ->
  onMessage topic message storeUp now rows
  = ([DirectusPatch key
        (updateData s (lookupField "result" fields)
           (lookupField "error_message" fields) now)],
     Normal (match patchItem storeUp key
                     (updateData s (lookupField "result" fields)
                        (lookupField "error_message" fields) now) rows with
             | Some rows' => rows'
             | None => rows
             end)).
Proof.
  intros Hparse Hid Hkey Hstatus Hvalid.
  unfold onMessage, handlerBody. rewrite Hparse. cbn [getProp].
  rewrite Hid, Hstatus. cbn [negb].
  assert (includesStatus (JStr s) = Some s) as ->.
  { by destruct Hvalid as [-> | [-> | ->]]. }
  rewrite Hkey. by destruct (patchItem _ _ _ _).
Qed.

(** X16. What an accepted status report does. A message that parses to
    an object whose [command_id] is a string, a key as the store issues
    them (not empty; letters, digits, [-] and [_], which the path of the
    request carries unchanged), and whose status is one of the three, sends
    exactly one PATCH for that key, whatever topic it came on (the device
    address in the topic is not compared with the command's device). When
    the store holds the command and accepts, every row with that key gets
    the reported status, the reported result and error message ([null] in
    place of a falsy or absent one) and the clock as execution time, keeps
    its other fields, and every other row is untouched. When the store
    rejects, or holds no such command, the table is unchanged: no row is
    created. *)
Theorem accepted_status_report_overwrites_one_record
    (topic message : string) (now : Z) (rows : list Command)
    (fields : list (string * JsValue)) (key s : string)
    (Hparse : JSON_parse message = Some (JObj fields))
    (Hid : lookupField "command_id" fields = JStr key)
    (Hplain : plainKey key = true)
    (Hstatus : lookupField "status" fields = JStr s)
    (Hvalid : s = "processing" \/ s = "completed" \/ s = "failed") :
  let r := lookupField "result" fields in
  let e := lookupField "error_message" fields in
  (forall storeUp,
     (onMessage topic message storeUp now rows).1
     = [DirectusPatch key (updateData s r e now)])
  /\ (forall topic',
        onMessage topic' message true now rows
        = onMessage topic message true now rows)
  /\ (exists rows',
        (onMessage topic message true now rows).2 = Normal rows'
        /\ length rows' = length rows
        /\ forall (i : nat) (c : Command),
             rows !! i = Some c ->
             exists c',
               rows' !! i = Some c'
               /\ (id c <> key -> c' = c)
               /\ (id c = key ->
                   status c' = s
                   /\ result c' = (if truthy r then r else JNull)
                   /\ error_message c' = (if truthy e then e else JNull)
                   /\ executed_at c' = Some now
                   /\ id c' = id c
                   /\ command_type c' = command_type c
                   /\ fingerprint_id c' = fingerprint_id c
                   /\ member_id c' = member_id c
                   /\ device_id c' = device_id c
                   /\ date_created c' = date_created c))
  /\ (onMessage topic message false now rows).2 = Normal rows
  /\ (hasItem key rows = false ->
      (onMessage topic message true now rows).2 = Normal rows).
Proof.
  intros r e.
  assert (key <> "") as Hne.
  { intros ->. discriminate. }
  assert (forall topic' storeUp,
    onMessage topic' message storeUp now rows
    = ([DirectusPatch key (updateData s r e now)],
       Normal (match patchItem storeUp key (updateData s r e now) rows with
               | Some rows' => rows'
               | None => rows
               end))) as Hmsg.
  { intros. apply onMessage_valid; try done.
    - rewrite Hid. simpl. by destruct (String.eqb_spec key "").
    - by rewrite Hid. }
  conjs.
  - intros storeUp. by rewrite Hmsg.
  - intros topic'. by rewrite !Hmsg.
  - rewrite Hmsg. cbn [snd]. eexists. split; [reflexivity|].
    unfold patchItem. cbn [andb].
    destruct (hasItem key rows) eqn:Hhas.
    + split; [by rewrite length_map|].
      intros i c Hi.
      exists (if String.eqb (id c) key
              then applyPatch (updateData s r e now) c else c).
      split.
      { change (map ?f rows) with (f <$> rows).
        by rewrite list_lookup_fmap, Hi. }
      destruct (String.eqb_spec (id c) key) as [Heq|Hne'].
      * split; [done|]. intros _. by repeat split.
      * split; [done|]. done.
    + split; [done|]. intros i c Hi. exists c. split; [done|].
      split; [done|]. intros Hk.
      assert (hasItem key rows = true) as Hyes; [|congruence].
      apply hasItem_In. exists c. split; [|done].
      apply list_elem_of_In. by eapply list_elem_of_lookup_2.
  - by rewrite Hmsg.
  - intros Hno. rewrite Hmsg. cbn [snd]. unfold patchItem. by rewrite Hno.
Qed.

(** X17. The later report wins. Two status reports for the same command,
    both accepted by the store, leave the table that the second alone
    would have left: nothing of the first survives, whatever the two
    statuses are. (So a "processing" that arrives after a "completed"
    puts the command back to "processing".) *)
Theorem later_status_report_wins
    (cfg : Config) (w : World) (topic1 message1 topic2 message2 : string)
    (now1 now2 : Z) (key : string) (b1 b2 : PatchBody)
    (Hfirst : (step cfg (StatusMessage topic1 message1 true now1) w).2
              = [DirectusPatch key b1])
    (Hsecond : (step cfg (StatusMessage topic2 message2 true now2) w).2
               = [DirectusPatch key b2]) :
  items (step cfg (StatusMessage topic2 message2 true now2)
           (step cfg (StatusMessage topic1 message1 true now1) w).1).1
  = items (step cfg (StatusMessage topic2 message2 true now2) w).1.
Proof.
  rewrite step_StatusMessage_effects in Hfirst, Hsecond.
  rewrite !step_StatusMessage_items.
  destruct (onMessage_shape topic1 message1)
    as [Hdrop|(k1 & s1 & r1 & e1 & H1)];
    [by rewrite Hdrop in Hfirst|].
  destruct (onMessage_shape topic2 message2)
    as [Hdrop|(k2 & s2 & r2 & e2 & H2)];
    [by rewrite Hdrop in Hsecond|].
  rewrite H1 in Hfirst. rewrite H2 in Hsecond.
  injection Hfirst as -> _. injection Hsecond as -> _.
  rewrite H1. cbn [snd]. rewrite !H2. cbn [snd].
  unfold patchItem. cbn [andb].
  destruct (hasItem key (items w)) eqn:Hhas; [|by rewrite Hhas].
  rewrite hasItem_patched, Hhas, map_map.
  apply map_ext. intros c. same_row c key.
Qed.

End Reports.

(** ** Across the two services *)

Section Across.
Context `{Json}.

(** X18. The identifier the bridge publishes is the key the status
    consumer patches. A status report that carries, as [command_id], what
    the payload of a command carries, with one of the three statuses, is
    one PATCH on the key of that very command, provided the key is not the
    empty string; with an empty key the report is dropped as one without
    identifier. *)
Theorem published_identifier_comes_back_as_the_key
    (cmd : Command) (topic message : string) (storeUp : bool) (now : Z)
    (rows : list Command) (fields : list (string * JsValue)) (s : string)
    (Hparse : JSON_parse message = Some (JObj fields))
    (Hecho : Some (lookupField "command_id" fields)
             = getProp "command_id" (commandPayload cmd))
    (Hstatus : lookupField "status" fields = JStr s)
    (Hvalid : s = "processing" \/ s = "completed" \/ s = "failed") :
  (id cmd <> "" ->
   (onMessage topic message storeUp now rows).1
   = [DirectusPatch (id cmd)
        (updateData s (lookupField "result" fields)
           (lookupField "error_message" fields) now)])
  /\ (id cmd = "" ->
      onMessage topic message storeUp now rows = ([], Normal rows)).
Proof.
  simpl in Hecho. injection Hecho as Hid. split.
  - intros Hne.
    rewrite (onMessage_valid topic message storeUp now rows fields (id cmd) s);
      try done.
    + rewrite Hid. simpl. by destruct (String.eqb_spec (id cmd) "").
    + by rewrite Hid.
  - intros Hempty. unfold onMessage, handlerBody.
    rewrite Hparse. cbn [getProp]. rewrite Hid, Hempty. done.
Qed.

(** X19. An entry of the dedup map is kept, and never refreshed. Through
    any run in which every cleanup reads a clock at most
    [PUBLISH_COOLDOWN] after the entry's timestamp, the entry is still
    there with the timestamp of the first publish: later cycles, requests
    on the trigger route for the same command and status reports do not
    move it, so the cooldown is counted from the first publish. *)
Theorem entry_is_kept_and_not_refreshed
    (cfg : Config) (evs : list Event) (w : World) (key : string) (ts : Z)
    (Hentry : recentlyPublished w !! key = Some ts)
    (Hwindow : Forall (withinCooldown ts) evs) :
  recentlyPublished (run cfg evs w).1 !! key = Some ts.
Proof.
  revert w Hentry.
  induction Hwindow as [|ev evs Hev _ IH]; intros w Hentry; [done|].
  rewrite run_world_cons. apply IH. by apply step_keeps_entry.
Qed.

End Across.

(** ** The further properties on the sample deployment *)

Section FurtherExamples.
#[local] Existing Instance Sample.json.

(** The bridge at start-up, then a cycle over C1 and C2 that is under way
    when the timer fires again. *)
Lemma poll_cycles_never_overlap_witness :
  let w := Sample.idle ∅ [Sample.C1; Sample.C2] in
  let evs := [PollTimer true; PollLoop true None 1000] in
  singleFlight w
  /\ map id (commands (run Sample.cfg evs w).1) = ["C2"]
  /\ step Sample.cfg (PollTimer true) (run Sample.cfg evs w).1
     = ((run Sample.cfg evs w).1, []).
Proof.
  intros w evs.
  assert (singleFlight w) as Hstart.
  { split; [split; [discriminate|by intros []]|simpl; lia]. }
  split; [exact Hstart|]. split; [reflexivity|].
  apply (poll_cycles_never_overlap Sample.cfg evs w Hstart). discriminate.
Defined.

(** A cycle over C1 and C2, with a status report and a request in
    between. *)
Lemma loop_visits_each_fetched_command_once_witness :
  let w := (step Sample.cfg (PollTimer true)
              (Sample.idle ∅ [Sample.C1; Sample.C2])).1 in
  let evs := [PollLoop true None 1000;
              StatusMessage "device/AA:BB:CC/status" "uptime=12" true 1500;
              HttpPublish None [] None 1600;
              PollLoop true None 2000] in
  forallb (fun ev => negb (isPollTimer ev)) evs = true
  /\ map fst (pollTrace Sample.cfg evs w) = ["C1"; "C2"]
  /\ commands (run Sample.cfg evs w).1 = []
  /\ isPolling (run Sample.cfg evs w).1 = false.
Proof.
  intros w evs. split; [reflexivity|].
  pose proof (loop_visits_each_fetched_command_once Sample.cfg evs w eq_refl)
    as (Htrace & Hleft & Hflag).
  split; [exact Htrace|]. split; [exact Hleft|].
  apply Hflag; [discriminate|simpl; lia].
Defined.

(** A request and a cycle's turn after the connection was lost. *)
Lemma nothing_reaches_the_broker_while_disconnected_witness :
  let w := (run Sample.cfg [PollTimer true; OnClose]
              (Sample.idle ∅ [Sample.C2])).1 in
  let evs := [HttpPublish (Some "Bearer s3cret")
                [("topic", JStr "device/AA:BB:CC/commands");
                 ("payload", JStr "reboot")] None 1000;
              PollLoop true None 2000] in
  mqttConnected w = false
  /\ forallb (fun ev => negb (isOnConnect ev)) evs = true
  /\ mqttConnected (run Sample.cfg evs w).1 = false
  /\ forall ev done e,
       In (ev, done) (run Sample.cfg evs w).2 -> In e done ->
       isMqttPublish e = false.
Proof.
  intros w evs. split; [reflexivity|]. split; [reflexivity|].
  exact (nothing_reaches_the_broker_while_disconnected
           Sample.cfg evs w eq_refl eq_refl).
Defined.

(** From start-up, through a cycle that publishes C2. *)
Lemma dedup_map_holds_only_stored_commands_witness :
  let w := Sample.idle ∅ [Sample.C1; Sample.C2] in
  let evs := [PollTimer true; PollLoop true None 1000;
              PollLoop true None 2000] in
  knownToStore w
  /\ recentlyPublished (run Sample.cfg evs w).1 !! "C2" = Some 2000
  /\ knownToStore (run Sample.cfg evs w).1.
Proof.
  intros w evs.
  assert (knownToStore w) as Hstart.
  { split; [|by intros c []]. intros key ts Hk. subst w. simpl in Hk.
    by rewrite lookup_empty in Hk. }
  split; [exact Hstart|]. split; [vm_compute; reflexivity|].
  exact (dedup_map_holds_only_stored_commands Sample.cfg evs w Hstart).
Defined.

(** The entry of C2 after a cycle is the record of its publish. *)
Lemma every_new_entry_records_a_publish_witness :
  let w := Sample.idle ∅ [Sample.C2] in
  let evs := [PollTimer true; PollLoop true None 1000] in
  recentlyPublished (run Sample.cfg evs w).1 !! "C2" = Some 1000
  /\ recentlyPublished w !! "C2" <> Some 1000
  /\ exists storeUp topic message,
       In (PollLoop storeUp None 1000, [MqttPublish topic message])
          (run Sample.cfg evs w).2
       /\ In ("C2", [MqttPublish topic message]) (pollTrace Sample.cfg evs w).
Proof.
  intros w evs.
  assert (recentlyPublished (run Sample.cfg evs w).1 !! "C2" = Some 1000)
    as Hnow by (vm_compute; reflexivity).
  assert (recentlyPublished w !! "C2" <> Some 1000) as Hbefore
    by (vm_compute; discriminate).
  split; [exact Hnow|]. split; [exact Hbefore|].
  exact (every_new_entry_records_a_publish Sample.cfg evs w "C2" 1000
           Hnow Hbefore).
Defined.

(** A bridge without token: timer ticks, a request, a turn of the loop. *)
Lemma without_token_the_bridge_only_relays_witness :
  let w := Sample.idle ∅ [Sample.C1; Sample.C2] in
  let evs := [PollTimer true; PollLoop true None 1000;
              HttpPublish (Some "Bearer s3cret")
                [("topic", JStr "device/AA:BB:CC/commands");
                 ("payload", JStr "reboot")] None 2000;
              PollTimer true] in
  directusApi More.relayOnly = false
  /\ commands w = []
  /\ pollTrace More.relayOnly evs w = []
  /\ map status (items (run More.relayOnly evs w).1) = ["pending"; "pending"].
Proof.
  intros w evs. split; [reflexivity|]. split; [reflexivity|].
  pose proof (without_token_the_bridge_only_relays More.relayOnly evs w
                eq_refl eq_refl) as (Htrace & _).
  split; [exact Htrace|reflexivity].
Defined.

(** The turn that visits C2 on a connected bridge. *)
Lemma one_turn_sends_at_most_one_request_witness :
  let w := (step Sample.cfg (PollTimer true) (Sample.idle ∅ [Sample.C2])).1 in
  commands w = [Sample.C2]
  /\ (length (step Sample.cfg (PollLoop true None 1000) w).2 <= 1)%nat
  /\ forall e,
       In e (step Sample.cfg (PollLoop true None 1000) w).2 ->
       isMqttPublish e = true ->
       exists mac,
         deviceMacOf Sample.C2 = Some mac
         /\ e = MqttPublish (JStr (commandTopic mac))
                  (JSON_stringify (commandPayload Sample.C2)).
Proof.
  intros w. split; [reflexivity|].
  pose proof (one_turn_sends_at_most_one_request
                Sample.cfg w Sample.C2 [] true None 1000 eq_refl)
    as (Hlen & _ & Hpub & _).
  split; [exact Hlen|exact Hpub].
Defined.


(** The report that C2 completed, on the topic of another device. *)
Lemma accepted_status_report_overwrites_one_record_witness :
  let message := Sample.render Sample.completedC2 in
  let rows := [Sample.C1; Sample.C2] in
  JSON_parse message
    = Some (JObj [("command_id", JStr "C2"); ("status", JStr "completed");
                  ("result", JObj [("ok", JBool true)])])
  /\ (onMessage "device/11:22:33/status" message true 5000 rows).1
     = [DirectusPatch "C2"
          (updateData "completed" (JObj [("ok", JBool true)]) JUndefined 5000)]
  /\ onMessage "device/11:22:33/status" message true 5000 rows
     = onMessage "device/AA:BB:CC/status" message true 5000 rows.
Proof.
  intros message rows. split; [reflexivity|].
  pose proof (accepted_status_report_overwrites_one_record
    "device/AA:BB:CC/status" message 5000 rows
    [("command_id", JStr "C2"); ("status", JStr "completed");
     ("result", JObj [("ok", JBool true)])] "C2" "completed"
    eq_refl eq_refl eq_refl eq_refl (or_intror (or_introl eq_refl)))
    as (Hsent & Htopic & _).
  split; [|apply Htopic].
  rewrite (Htopic "device/11:22:33/status"). apply Hsent.
Defined.

(** What C2's payload carries comes back in the report that it
    completed. *)
Lemma published_identifier_comes_back_as_the_key_witness :
  let message := Sample.render Sample.completedC2 in
  getProp "command_id" (commandPayload Sample.C2) = Some (JStr "C2")
  /\ (onMessage "device/AA:BB:CC/status" message true 5000 [Sample.C2]).1
     = [DirectusPatch (id Sample.C2)
          (updateData "completed" (JObj [("ok", JBool true)]) JUndefined 5000)].
Proof.
  intros message. split; [reflexivity|].
  refine (proj1 (published_identifier_comes_back_as_the_key
    Sample.C2 "device/AA:BB:CC/status" message true 5000 [Sample.C2]
    [("command_id", JStr "C2"); ("status", JStr "completed");
     ("result", JObj [("ok", JBool true)])] "completed"
    eq_refl eq_refl eq_refl (or_intror (or_introl eq_refl))) _).
  discriminate.
Defined.

(** The entry of C2, through a cleanup inside the window, a second cycle
    and a request on the trigger route for the same device. *)
Lemma entry_is_kept_and_not_refreshed_witness :
  let w := Sample.idle {[ "C2" := 1000 ]} [Sample.C2] in
  let evs := [CleanupTimer 30000; PollTimer true; PollLoop true None 30500;
              HttpPublish (Some "Bearer s3cret")
                [("topic", JStr "device/AA:BB:CC/commands");
                 ("payload", JStr "reboot")] None 30600] in
  recentlyPublished w !! "C2" = Some 1000
  /\ Forall (withinCooldown 1000) evs
  /\ recentlyPublished (run Sample.cfg evs w).1 !! "C2" = Some 1000.
Proof.
  intros w evs.
  assert (Forall (withinCooldown 1000) evs) as Hwindow.
  { repeat constructor. unfold withinCooldown, PUBLISH_COOLDOWN. lia. }
  split; [reflexivity|]. split; [exact Hwindow|].
  exact (entry_is_kept_and_not_refreshed Sample.cfg evs w "C2" 1000
           eq_refl Hwindow).
Defined.

End FurtherExamples.

Section LaterReportExample.
#[local] Existing Instance More.json.

(** "completed" at clock 1000, then a late "processing" at clock 2000. *)
Lemma later_status_report_wins_witness :
  let w := Sample.idle ∅ [Sample.C2] in
  let first := StatusMessage "device/AA:BB:CC/status"
                 (Sample.render Sample.completedC2) true 1000 in
  let second := StatusMessage "device/AA:BB:CC/status"
                  (Sample.render More.processingC2) true 2000 in
  map status (items (step Sample.cfg first w).1) = ["completed"]
  /\ map status (items (step Sample.cfg second (step Sample.cfg first w).1).1)
     = ["processing"]
  /\ items (step Sample.cfg second (step Sample.cfg first w).1).1
     = items (step Sample.cfg second w).1.
Proof.
  intros w first second.
  split; [vm_compute; reflexivity|]. split; [vm_compute; reflexivity|].
  exact (later_status_report_wins Sample.cfg w
           "device/AA:BB:CC/status" (Sample.render Sample.completedC2)
           "device/AA:BB:CC/status" (Sample.render More.processingC2)
           1000 2000 "C2"
           (updateData "completed" (JObj [("ok", JBool true)]) JUndefined 1000)
           (updateData "processing" JUndefined JUndefined 2000)
           eq_refl eq_refl).
Defined.

End LaterReportExample.
